(** * The Fuchsia camera capture device: frame handling and pixel conversion

    A shallow embedding of
    [media/capture/video/fuchsia/video_capture_device_fuchsia.cc]:
    the anonymous-namespace helpers [RoundUp] and [CopyAndConvertFrame],
    and the member functions of [VideoCaptureDeviceFuchsia], followed by
    the properties of the frame pipeline that the design document states.

    Machine integers are integers of [Z] with the wrap-around of their C++
    type written out: [size_t] is 64 bits wide on every Fuchsia target,
    [int] is 32 bits wide.  Pointers are 64-bit addresses, and adding to
    a pointer wraps around like any 64-bit addition. *)

From Stdlib Require Import ZArith List Bool Lia QArith.
Import ListNotations.
Open Scope Z_scope.

(** ** Machine arithmetic *)

Module MachineInt.

Definition SIZE_MODULUS : Z := 2 ^ 64.
Definition INT_MAX : Z := 2 ^ 31 - 1.

(** Conversion to [size_t] (also the conversion of a negative [int]). *)
Definition to_size_t (z : Z) : Z := z mod SIZE_MODULUS.

(** Conversion to [int]: the value is reduced modulo [2^32] into the
    signed range. *)
Definition to_int (z : Z) : Z := (z + 2 ^ 31) mod 2 ^ 32 - 2 ^ 31.

Definition size_add (a b : Z) : Z := to_size_t (a + b).
Definition size_sub (a b : Z) : Z := to_size_t (a - b).
Definition size_mul (a b : Z) : Z := to_size_t (a * b).

(** [int] arithmetic.  Signed overflow is undefined in the source
    language; the model wraps around, as the compiled code does on the
    two's-complement targets. *)
Definition int_add (a b : Z) : Z := to_int (a + b).
Definition int_mul (a b : Z) : Z := to_int (a * b).
Definition int_div (a b : Z) : Z := Z.quot a b.

(** Pointer arithmetic: the address [n] bytes after [p] ([n] may be a
    negative [int]). *)
Definition ptr_add (p n : Z) : Z := (p + n) mod SIZE_MODULUS.

End MachineInt.
Import MachineInt.

(** ** Geometry and formats *)

(** [gfx::Size], declared in [ui/gfx/geometry/size.h]: its constructor
    stores [max(0, width)] and [max(0, height)]. *)
Record Size : Type := mkSize { width : Z; height : Z }.

Definition gfx_Size (w h : Z) : Size :=
  {| width := Z.max 0 w; height := Z.max 0 h |}.

(** [gfx::Rect]; [gfx::Rect(size)] is anchored at the origin. *)
Record Rect : Type :=
  mkRect { rect_x : Z; rect_y : Z; rect_width : Z; rect_height : Z }.

Definition gfx_Rect (s : Size) : Rect :=
  {| rect_x := 0; rect_y := 0; rect_width := width s; rect_height := height s |}.

(** [fuchsia::sysmem::PixelFormatType]: the three layouts the device reads
    and, under one constructor, every other enumerator. *)
Inductive PixelFormatType : Type :=
| I420
| YV12
| NV12
| OtherPixelFormat (raw : Z).

Inductive VideoPixelFormat : Type :=
| PIXEL_FORMAT_UNKNOWN
| PIXEL_FORMAT_I420.

Definition VideoPixelFormat_eqb (a b : VideoPixelFormat) : bool :=
  match a, b with
  | PIXEL_FORMAT_UNKNOWN, PIXEL_FORMAT_UNKNOWN => true
  | PIXEL_FORMAT_I420, PIXEL_FORMAT_I420 => true
  | _, _ => false
  end.

(** ** RoundUp *)

(** [RoundUp(value, alignment)]; dividing by a zero alignment has no
    defined result. *)
Definition RoundUp (value alignment : Z) : option Z :=
  if alignment =? 0 then None
  else Some (size_mul (size_sub (size_add value alignment) 1 / alignment) alignment).

(** ** CopyAndConvertFrame *)

(** [base::span<const uint8_t>]: the address of the first byte and the
    number of bytes. *)
Record Span : Type := { span_data : Z; span_size : Z }.

(** [VideoCaptureBufferHandle]: the address of the mapping and its
    size. *)
Record BufferHandle : Type := { data : Z; mapped_size : Z }.

(** The two conversion routines of the pixel library.  They are the only
    operations that store into the destination buffer; a call is recorded
    with the addresses and strides it receives. *)
Inductive LibyuvCall : Type :=
| I420Copy (src_y src_stride_y src_u src_stride_u src_v src_stride_v
            dst_y dst_stride_y dst_u dst_stride_u dst_v dst_stride_v
            w h : Z)
| NV12ToI420 (src_y src_stride_y src_uv src_stride_uv
              dst_y dst_stride_y dst_u dst_stride_u dst_v dst_stride_v
              w h : Z).

Inductive ConvertResult : Type :=
| Converted (call : LibyuvCall)
| DstCheckFailed      (* CHECK_LE(dst_end, ...) aborts *)
| SrcCheckFailed      (* CHECK_LE(src_end, ...) aborts *)
| NotReached.         (* default: NOTREACHED() *)

(** The address [dst_end], the end of the destination V plane as the
    converter computes it. *)
Definition dst_plane_end (output_handle : BufferHandle) (output_size : Size) : Z :=
  let dst_y := data output_handle in
  let dst_y_plane_size := to_size_t (int_mul (width output_size) (height output_size)) in
  let dst_u := ptr_add dst_y dst_y_plane_size in
  let dst_v := ptr_add dst_u (dst_y_plane_size / 4) in
  ptr_add dst_v (dst_y_plane_size / 4).

(** The address just after the destination mapping. *)
Definition handle_end (output_handle : BufferHandle) : Z :=
  ptr_add (data output_handle) (mapped_size output_handle).

Definition CopyAndConvertFrame
    (src_span : Span) (src_pixel_format : PixelFormatType)
    (src_stride_y src_coded_height : Z)
    (output_handle : BufferHandle) (output_size : Size) : ConvertResult :=
  let src_y := span_data src_span in
  let src_y_plane_size := size_mul src_stride_y src_coded_height in
  (* Calculate offsets and strides for the output buffer. *)
  let dst_y := data output_handle in
  let dst_stride_y := width output_size in
  let dst_y_plane_size := to_size_t (int_mul (width output_size) (height output_size)) in
  let dst_u := ptr_add dst_y dst_y_plane_size in
  let dst_stride_u := int_div (width output_size) 2 in
  let dst_v := ptr_add dst_u (dst_y_plane_size / 4) in
  let dst_stride_v := int_div (width output_size) 2 in
  (* Check that the output fits in the buffer. *)
  let dst_end := ptr_add dst_v (dst_y_plane_size / 4) in
  if negb (dst_end <=? ptr_add (data output_handle) (mapped_size output_handle))
  then DstCheckFailed
  else
    match src_pixel_format with
    | YV12 | I420 =>
        let src_u := ptr_add src_y src_y_plane_size in
        let src_stride_u := to_int (src_stride_y / 2) in
        let src_u_plane_size := size_mul (to_size_t src_stride_u) src_coded_height / 2 in
        let src_v := ptr_add src_u src_u_plane_size in
        let src_stride_v := to_int (src_stride_y / 2) in
        (* Swap U and V planes to account for different plane order in YV12. *)
        let '(src_u, src_v) :=
          match src_pixel_format with
          | YV12 => (src_v, src_u)
          | _ => (src_u, src_v)
          end in
        let src_v_plane_size := size_mul (to_size_t src_stride_v) src_coded_height / 2 in
        let src_end := ptr_add src_v src_v_plane_size in
        if negb (src_end <=? ptr_add (span_data src_span) (span_size src_span))
        then SrcCheckFailed
        else
          Converted (I420Copy src_y (to_int src_stride_y) src_u src_stride_u
                              src_v src_stride_v dst_y dst_stride_y dst_u
                              dst_stride_u dst_v dst_stride_v
                              (width output_size) (height output_size))
    | NV12 =>
        let src_uv := ptr_add src_y (size_mul src_stride_y src_coded_height) in
        let src_stride_uv := to_int src_stride_y in
        let src_uv_plane_size :=
          to_int (size_mul (to_size_t src_stride_uv) src_coded_height / 2) in
        let src_end := ptr_add src_uv src_uv_plane_size in
        if negb (src_end <=? ptr_add (span_data src_span) (span_size src_span))
        then SrcCheckFailed
        else
          Converted (NV12ToI420 src_y (to_int src_stride_y) src_uv src_stride_uv
                                dst_y dst_stride_y dst_u dst_stride_u
                                dst_v dst_stride_v
                                (width output_size) (height output_size))
    | OtherPixelFormat _ => NotReached
    end.

(** The bytes a conversion stores into the destination: none unless a
    library routine is called. *)
Definition writes_destination (r : ConvertResult) : bool :=
  match r with
  | Converted _ => true
  | _ => false
  end.

(** How a conversion that calls no routine ends. *)
Inductive ConvertAbort : Type :=
| AbortDestinationCheck
| AbortSourceCheck
| AbortNotReached.

Definition conversion_abort (r : ConvertResult) : option ConvertAbort :=
  match r with
  | Converted _ => None
  | DstCheckFailed => Some AbortDestinationCheck
  | SrcCheckFailed => Some AbortSourceCheck
  | NotReached => Some AbortNotReached
  end.

(** The size test of the per-frame handler: [coded_height * stride * 3 / 2]
    in [size_t]. *)
Definition src_buffer_size (src_coded_height src_stride : Z) : Z :=
  size_mul (size_mul src_coded_height src_stride) 3 / 2.

(** Rounding of one visible dimension to an even output dimension:
    [(v + 1) & ~1]. *)
Definition round_to_even (v : Z) : Z := Z.land (int_add v 1) (Z.lnot 1).

Definition output_size_of (visible_size : Size) : Size :=
  gfx_Size (round_to_even (width visible_size))
           (round_to_even (height visible_size)).

(** ** Collaborators of the device *)

(** The error kinds the device reports to its client. *)
Inductive VideoCaptureError : Type :=
| kFuchsiaCameraDeviceDisconnected
| kFuchsiaCameraStreamDisconnected
| kFuchsiaSysmemDidNotSetImageFormat
| kFuchsiaSysmemInvalidBufferIndex
| kFuchsiaSysmemInvalidBufferSize
| kFuchsiaUnsupportedPixelFormat
| kFuchsiaFailedToMapSysmemBuffer.

(** [fuchsia::sysmem::ImageFormatConstraints], the fields the device reads
    (all [uint32_t]). *)
Record ImageFormatConstraints : Type := {
  pixel_format_type : PixelFormatType;
  min_coded_width : Z;
  required_max_coded_width : Z;
  coded_width_divisor : Z;
  min_coded_height : Z;
  required_max_coded_height : Z;
  coded_height_divisor : Z;
  min_bytes_per_row : Z;
  bytes_per_row_divisor : Z
}.

Record SingleBufferSettings : Type := {
  has_image_format_constraints : bool;
  image_format_constraints : ImageFormatConstraints
}.

(** Modelled from the spec: the class [SysmemBufferReader] of
    [media/fuchsia/common], of which only the uses are embedded here.  A
    reader exposes the negotiated settings, the number of buffers and, per
    buffer, a byte span; the empty span stands for a buffer that cannot
    be mapped. *)
Record SysmemBufferReader : Type := {
  buffer_settings : SingleBufferSettings;
  mappings : list Span
}.

Definition num_buffers (r : SysmemBufferReader) : Z :=
  Z.of_nat (length (mappings r)).

Definition GetMappingForBuffer (r : SysmemBufferReader) (index : Z) : Span :=
  nth (Z.to_nat index) (mappings r) {| span_data := 0; span_size := 0 |}.

Record SysmemBufferPool : Type := { pool_id : Z }.

(** [fuchsia::camera3::FrameInfo]: buffer index ([uint32_t]) and capture
    time ([zx_time_t], nanoseconds). *)
Record FrameInfo : Type := {
  buffer_index : Z;
  timestamp : Z
}.

Inductive ReserveResult : Type :=
| kSucceeded
| kMaxBufferCountExceeded
| kAllocationFailed.

(** Modelled from the spec: the answer of the capture client to
    [ReserveOutputBuffer], a buffer or a backpressure signal; of the
    buffer only the handle for in-process access is used. *)
Record ReserveReply : Type := {
  reserve_result : ReserveResult;
  buffer_handle : BufferHandle
}.

Record VideoCaptureFormat : Type := {
  frame_size : Size;
  frame_rate : Q;
  pixel_format : VideoPixelFormat
}.

Inductive StreamRequest : Type :=
| WatchResolutionRequest
| SetBufferCollectionRequest
| WatchBufferCollectionRequest
| GetNextFrameRequest.

(** Everything the device does to the outside, in program order. *)
Inductive Event : Type :=
| ClientOnStarted
| ClientOnError (error : VideoCaptureError)
| ClientReserveOutputBuffer (dimensions : Size) (format : VideoPixelFormat)
| ClientOnIncomingCapturedBufferExt
    (format : VideoCaptureFormat) (reference_time presentation : Z)
    (visible_rect : Rect)
| DeviceConnectToStream (stream_id : Z)
| ToStream (bound : bool) (request : StreamRequest)
| AllocatorCreateNewToken
| CreatorCreate (max_used_output_frames : Z)
| CollectionCreateReader
| LibyuvWrite (call : LibyuvCall).

(** ** The device object *)

Record Device : Type := mkDevice {
  device_ : bool;                               (* device_ is bound *)
  stream_ : bool;                               (* stream_ is bound *)
  client_ : bool;                               (* client_ is non-null *)
  start_time_ : Z;                              (* base::TimeTicks, microseconds *)
  frames_received_ : Z;
  frame_size_ : option Size;
  buffer_collection_creator_ : bool;            (* non-null *)
  buffer_collection_ : option SysmemBufferPool;
  buffer_reader_ : option SysmemBufferReader;
  started_ : bool
}.

(** The object right after its constructor, which binds [device_].  The
    other members take the initial values of the class header: the smart
    pointers and the optional start empty, and [started_] starts false,
    as the test [!started_] before the first [OnStarted] supposes. *)
Definition constructed : Device :=
  {| device_ := true; stream_ := false; client_ := false;
     start_time_ := 0; frames_received_ := 0; frame_size_ := None;
     buffer_collection_creator_ := false; buffer_collection_ := None;
     buffer_reader_ := None; started_ := false |}.

Definition set_device_ (v : bool) (d : Device) : Device :=
  mkDevice v (stream_ d) (client_ d) (start_time_ d) (frames_received_ d)
           (frame_size_ d) (buffer_collection_creator_ d)
           (buffer_collection_ d) (buffer_reader_ d) (started_ d).
Definition set_stream_ (v : bool) (d : Device) : Device :=
  mkDevice (device_ d) v (client_ d) (start_time_ d) (frames_received_ d)
           (frame_size_ d) (buffer_collection_creator_ d)
           (buffer_collection_ d) (buffer_reader_ d) (started_ d).
Definition set_client_ (v : bool) (d : Device) : Device :=
  mkDevice (device_ d) (stream_ d) v (start_time_ d) (frames_received_ d)
           (frame_size_ d) (buffer_collection_creator_ d)
           (buffer_collection_ d) (buffer_reader_ d) (started_ d).
Definition set_start_time_ (v : Z) (d : Device) : Device :=
  mkDevice (device_ d) (stream_ d) (client_ d) v (frames_received_ d)
           (frame_size_ d) (buffer_collection_creator_ d)
           (buffer_collection_ d) (buffer_reader_ d) (started_ d).
Definition set_frames_received_ (v : Z) (d : Device) : Device :=
  mkDevice (device_ d) (stream_ d) (client_ d) (start_time_ d) v
           (frame_size_ d) (buffer_collection_creator_ d)
           (buffer_collection_ d) (buffer_reader_ d) (started_ d).
Definition set_frame_size_ (v : option Size) (d : Device) : Device :=
  mkDevice (device_ d) (stream_ d) (client_ d) (start_time_ d)
           (frames_received_ d) v (buffer_collection_creator_ d)
           (buffer_collection_ d) (buffer_reader_ d) (started_ d).
Definition set_buffer_collection_creator_ (v : bool) (d : Device) : Device :=
  mkDevice (device_ d) (stream_ d) (client_ d) (start_time_ d)
           (frames_received_ d) (frame_size_ d) v
           (buffer_collection_ d) (buffer_reader_ d) (started_ d).
Definition set_buffer_collection_ (v : option SysmemBufferPool) (d : Device) : Device :=
  mkDevice (device_ d) (stream_ d) (client_ d) (start_time_ d)
           (frames_received_ d) (frame_size_ d) (buffer_collection_creator_ d)
           v (buffer_reader_ d) (started_ d).
Definition set_buffer_reader_ (v : option SysmemBufferReader) (d : Device) : Device :=
  mkDevice (device_ d) (stream_ d) (client_ d) (start_time_ d)
           (frames_received_ d) (frame_size_ d) (buffer_collection_creator_ d)
           (buffer_collection_ d) v (started_ d).
Definition set_started_ (v : bool) (d : Device) : Device :=
  mkDevice (device_ d) (stream_ d) (client_ d) (start_time_ d)
           (frames_received_ d) (frame_size_ d) (buffer_collection_creator_ d)
           (buffer_collection_ d) (buffer_reader_ d) v.

(** ** A monad for member functions

    A member function runs on the device object, appends to the log of
    outside operations, and either returns or stops the process. *)

Inductive CheckSite : Type :=
| DestinationCheck    (* CHECK_LE(dst_end, ...) *)
| SourceCheck.        (* CHECK_LE(src_end, ...) *)

Inductive FaultKind : Type :=
| DcheckFailure                     (* a DCHECK or NOTREACHED that does not hold *)
| CheckFailure (site : CheckSite)   (* a CHECK that does not hold: the process aborts *)
| DivisionByZero
| NullDereference.

Inductive Outcome (A : Type) : Type :=
| Done (a : A) (d : Device) (log : list Event)
| Fault (f : FaultKind) (log : list Event).
Arguments Done {A} a d log.
Arguments Fault {A} f log.

Definition M (A : Type) : Type := Device -> Outcome A.

Definition ret {A} (a : A) : M A := fun d => Done a d [].

Definition bind {A B} (m : M A) (k : A -> M B) : M B :=
  fun d =>
    match m d with
    | Done a d1 l1 =>
        match k a d1 with
        | Done b d2 l2 => Done b d2 (l1 ++ l2)
        | Fault f l2 => Fault f (l1 ++ l2)
        end
    | Fault f l1 => Fault f l1
    end.

Notation "x <- m ;; k" := (bind m (fun x => k))
  (at level 61, m at next level, right associativity).
Notation "m ;; k" := (bind m (fun _ => k))
  (at level 61, right associativity).

Definition this : M Device := fun d => Done d d [].
Definition update (f : Device -> Device) : M unit := fun d => Done tt (f d) [].
Definition emit (e : Event) : M unit := fun d => Done tt d [e].
Definition fault {A} (f : FaultKind) : M A := fun _ => Fault f [].

(** A [DCHECK] that does not hold stops the run, as in a checked build;
    the statements below that pass through one assume its condition, so
    they hold for unchecked builds as well.  The thread checks are left
    out: every member function runs on the one sequence of the device. *)
Definition DCHECK (b : bool) : M unit :=
  if b then ret tt else fault DcheckFailure.

Definition log_of {A} (o : Outcome A) : list Event :=
  match o with
  | Done _ _ l => l
  | Fault _ l => l
  end.

Definition device_of {A} (o : Outcome A) : option Device :=
  match o with
  | Done _ d _ => Some d
  | Fault _ _ => None
  end.

(** A request on [stream_]; the log keeps whether the channel was bound. *)
Definition call_stream (request : StreamRequest) : M unit :=
  d <- this ;;
  emit (ToStream (stream_ d) request).

(** A [RoundUp] whose division is undefined stops the run. *)
Definition defined (o : option Z) : M Z :=
  match o with
  | Some v => ret v
  | None => fault DivisionByZero
  end.

(** ** Time *)

(** [base::TimeTicks::FromZxTime] of [base/time]: nanoseconds to
    microsecond ticks. *)
Definition FromZxTime (nanos : Z) : Z := Z.quot nanos 1000.

(** [base::TimeDelta::InSecondsF], as an exact rational. *)
Definition InSecondsF (delta : Z) : Q := inject_Z delta / inject_Z 1000000.

(** ** Member functions of VideoCaptureDeviceFuchsia *)

Definition GetConvertedPixelFormat (format : PixelFormatType) : VideoPixelFormat :=
  match format with
  | I420 | YV12 | NV12 => PIXEL_FORMAT_I420
  | OtherPixelFormat _ => PIXEL_FORMAT_UNKNOWN
  end.

Definition IsSupportedPixelFormat (format : PixelFormatType) : bool :=
  negb (VideoPixelFormat_eqb (GetConvertedPixelFormat format) PIXEL_FORMAT_UNKNOWN).

Definition DisconnectStream : M unit :=
  update (set_stream_ false) ;;
  update (set_buffer_collection_creator_ false) ;;
  update (set_buffer_collection_ None) ;;
  update (set_buffer_reader_ None) ;;
  update (set_frame_size_ None).

Definition OnError (error : VideoCaptureError) : M unit :=
  DisconnectStream ;;
  d <- this ;;
  if client_ d then emit (ClientOnError error) else ret tt.

Definition StopAndDeAllocate : M unit :=
  DisconnectStream ;;
  update (set_client_ false).

Definition OnDeviceError : M unit := OnError kFuchsiaCameraDeviceDisconnected.

Definition OnStreamError : M unit := OnError kFuchsiaCameraStreamDisconnected.

Definition WatchResolution : M unit := call_stream WatchResolutionRequest.

Definition OnWatchResolutionResult (w h : Z) : M unit :=
  update (set_frame_size_ (Some (gfx_Size w h))) ;;
  WatchResolution.

Definition WatchBufferCollection : M unit :=
  call_stream WatchBufferCollectionRequest.

Definition kMaxUsedOutputFrames : Z := 1.

Definition InitializeBufferCollection : M unit :=
  (* Drop old buffers. *)
  update (set_buffer_collection_ None) ;;
  update (set_buffer_reader_ None) ;;
  (* Initialize the new collection. *)
  update (set_buffer_collection_creator_ true) ;;
  emit (CreatorCreate kMaxUsedOutputFrames).

(** The callback handed to [WatchBufferCollection]. *)
Definition OnWatchBufferCollectionResult : M unit :=
  InitializeBufferCollection ;;
  WatchBufferCollection.

Definition OnBufferCollectionCreated (collection : SysmemBufferPool) : M unit :=
  update (set_buffer_collection_ (Some collection)) ;;
  emit CollectionCreateReader.

Definition ReceiveNextFrame : M unit := call_stream GetNextFrameRequest.

Definition OnBufferReaderCreated (reader : SysmemBufferReader) : M unit :=
  update (set_buffer_reader_ (Some reader)) ;;
  if negb (has_image_format_constraints (buffer_settings reader)) then
    OnError kFuchsiaSysmemDidNotSetImageFormat
  else
    let pixel_format :=
      pixel_format_type (image_format_constraints (buffer_settings reader)) in
    if negb (IsSupportedPixelFormat pixel_format) then
      OnError kFuchsiaUnsupportedPixelFormat
    else
      d <- this ;;
      if negb (started_ d) then
        update (set_started_ true) ;;
        (if client_ d then emit ClientOnStarted else fault NullDereference) ;;
        ReceiveNextFrame
      else ret tt.

Definition AllocateAndStart (requested : VideoPixelFormat) (now : Z) : M unit :=
  DCHECK (VideoPixelFormat_eqb requested PIXEL_FORMAT_I420) ;;
  d <- this ;;
  DCHECK (negb (client_ d)) ;;
  DCHECK (negb (stream_ d)) ;;
  update (set_client_ true) ;;
  if negb (device_ d) then
    OnError kFuchsiaCameraDeviceDisconnected
  else
    update (set_start_time_ now) ;;
    update (set_frames_received_ 0) ;;
    emit (DeviceConnectToStream 0) ;;
    update (set_stream_ true) ;;
    WatchResolution ;;
    emit AllocatorCreateNewToken ;;
    call_stream SetBufferCollectionRequest ;;
    WatchBufferCollection.

Definition ProcessNewFrame (frame_info : FrameInfo) (reply : ReserveReply) : M unit :=
  d <- this ;;
  DCHECK (client_ d) ;;
  match buffer_reader_ d with
  | None => ret tt     (* frame received before the collection is ready *)
  | Some reader =>
      let index := to_size_t (buffer_index frame_info) in
      if num_buffers reader <=? index then
        OnError kFuchsiaSysmemInvalidBufferIndex
      else
        let sysmem_buffer_format := image_format_constraints (buffer_settings reader) in
        src_coded_width <-
          defined (RoundUp (Z.max (min_coded_width sysmem_buffer_format)
                                  (required_max_coded_width sysmem_buffer_format))
                           (coded_width_divisor sysmem_buffer_format)) ;;
        src_coded_height <-
          defined (RoundUp (Z.max (min_coded_height sysmem_buffer_format)
                                  (required_max_coded_height sysmem_buffer_format))
                           (coded_height_divisor sysmem_buffer_format)) ;;
        src_stride <-
          defined (RoundUp (Z.max (to_size_t (min_bytes_per_row sysmem_buffer_format))
                                  src_coded_width)
                           (bytes_per_row_divisor sysmem_buffer_format)) ;;
        let visible_size :=
          match frame_size_ d with
          | Some s => s
          | None => gfx_Size (to_int src_coded_width) (to_int src_coded_height)
          end in
        let output_size :=
          gfx_Size (round_to_even (width visible_size))
                   (round_to_even (height visible_size)) in
        let reference_time := FromZxTime (timestamp frame_info) in
        let timestamp := Z.max (reference_time - start_time_ d) 0 in
        let frame_rate :=
          if 0 <? timestamp
          then (inject_Z (frames_received_ d) / InSecondsF timestamp)%Q
          else 0%Q in
        let capture_format :=
          {| frame_size := output_size; frame_rate := frame_rate;
             pixel_format := PIXEL_FORMAT_I420 |} in
        emit (ClientReserveOutputBuffer (frame_size capture_format)
                                        (pixel_format capture_format)) ;;
        match reserve_result reply with
        | kSucceeded =>
            let src_span := GetMappingForBuffer reader index in
            if span_size src_span =? 0 then
              OnError kFuchsiaFailedToMapSysmemBuffer
            else
              (* The U and V channels are subsampled at 2x in both
                 directions: the buffer is 3/2 of the Y plane. *)
              let src_buffer_size := src_buffer_size src_coded_height src_stride in
              if span_size src_span <? src_buffer_size then
                OnError kFuchsiaSysmemInvalidBufferSize
              else
                let src_pixel_format :=
                  pixel_format_type (image_format_constraints (buffer_settings reader)) in
                match CopyAndConvertFrame src_span src_pixel_format src_stride
                                          src_coded_height (buffer_handle reply)
                                          output_size with
                | Converted call => emit (LibyuvWrite call)
                | DstCheckFailed => fault (CheckFailure DestinationCheck)
                | SrcCheckFailed => fault (CheckFailure SourceCheck)
                | NotReached => fault DcheckFailure
                end ;;
                emit (ClientOnIncomingCapturedBufferExt
                        capture_format reference_time timestamp
                        (gfx_Rect visible_size))
        | _ => ret tt  (* no output buffer: the frame is dropped *)
        end
  end.

(** The callback handed to [GetNextFrame]. *)
Definition OnGetNextFrameResult (frame_info : FrameInfo) (reply : ReserveReply) : M unit :=
  ProcessNewFrame frame_info reply ;;
  ReceiveNextFrame.

(** ** Runs of the device

    What reaches the object from outside: the two calls of the capture
    interface and the callbacks of the stream, of the pool creator and of
    the pool.  A callback is delivered only while the object that holds
    it is alive: unbinding [stream_] drops the stream's callbacks, and
    resetting the creator or the pool drops theirs.  A channel error
    unbinds the channel before its handler runs. *)
Inductive Input : Type :=
| CallAllocateAndStart (requested : VideoPixelFormat) (now : Z)
| CallStopAndDeAllocate
| DeviceError
| StreamError
| ResolutionResult (w h : Z)
| BufferCollectionResult
| BufferCollectionCreated (collection : SysmemBufferPool)
| BufferReaderCreated (reader : SysmemBufferReader)
| NextFrameResult (frame_info : FrameInfo) (reply : ReserveReply).

Definition while_alive (alive : Device -> bool) (m : M unit) : M unit :=
  d <- this ;;
  if alive d then m else ret tt.

Definition dispatch (i : Input) : M unit :=
  match i with
  | CallAllocateAndStart requested now => AllocateAndStart requested now
  | CallStopAndDeAllocate => StopAndDeAllocate
  | DeviceError =>
      while_alive device_ (update (set_device_ false) ;; OnDeviceError)
  | StreamError =>
      while_alive stream_ (update (set_stream_ false) ;; OnStreamError)
  | ResolutionResult w h => while_alive stream_ (OnWatchResolutionResult w h)
  | BufferCollectionResult => while_alive stream_ OnWatchBufferCollectionResult
  | BufferCollectionCreated collection =>
      while_alive buffer_collection_creator_ (OnBufferCollectionCreated collection)
  | BufferReaderCreated reader =>
      while_alive (fun d => match buffer_collection_ d with Some _ => true | None => false end)
                  (OnBufferReaderCreated reader)
  | NextFrameResult frame_info reply =>
      while_alive stream_ (OnGetNextFrameResult frame_info reply)
  end.

Fixpoint run (inputs : list Input) : M unit :=
  match inputs with
  | [] => ret tt
  | i :: rest => dispatch i ;; run rest
  end.

(** ** Vocabulary of the statements *)

(** The coded width, coded height and row stride the per-frame handler
    derives from the negotiated constraints. *)
Definition coded_layout (f : ImageFormatConstraints) (cw ch stride : Z) : Prop :=
  RoundUp (Z.max (min_coded_width f) (required_max_coded_width f))
          (coded_width_divisor f) = Some cw /\
  RoundUp (Z.max (min_coded_height f) (required_max_coded_height f))
          (coded_height_divisor f) = Some ch /\
  RoundUp (Z.max (to_size_t (min_bytes_per_row f)) cw)
          (bytes_per_row_divisor f) = Some stride.

(** The object after [DisconnectStream]. *)
Definition torn_down (d : Device) : Device :=
  mkDevice (device_ d) false (client_ d) (start_time_ d) (frames_received_ d)
           None false None None (started_ d).

(** The values the per-frame handler computes for a frame. *)
Definition visible_size_of (d : Device) (cw ch : Z) : Size :=
  match frame_size_ d with
  | Some s => s
  | None => gfx_Size (to_int cw) (to_int ch)
  end.

Definition presentation_of (d : Device) (fi : FrameInfo) : Z :=
  Z.max (FromZxTime (timestamp fi) - start_time_ d) 0.

Definition frame_rate_of (d : Device) (fi : FrameInfo) : Q :=
  if 0 <? presentation_of d fi
  then (inject_Z (frames_received_ d) / InSecondsF (presentation_of d fi))%Q
  else 0%Q.

Definition capture_format_of (d : Device) (fi : FrameInfo) (cw ch : Z)
  : VideoCaptureFormat :=
  {| frame_size := output_size_of (visible_size_of d cw ch);
     frame_rate := frame_rate_of d fi;
     pixel_format := PIXEL_FORMAT_I420 |}.

Definition reserve_event (d : Device) (cw ch : Z) : Event :=
  ClientReserveOutputBuffer (output_size_of (visible_size_of d cw ch))
                            PIXEL_FORMAT_I420.

Definition delivery_event (d : Device) (fi : FrameInfo) (cw ch : Z) : Event :=
  ClientOnIncomingCapturedBufferExt
    (capture_format_of d fi cw ch) (FromZxTime (timestamp fi))
    (presentation_of d fi) (gfx_Rect (visible_size_of d cw ch)).

(** Classes of events. *)
Definition is_write (e : Event) : bool :=
  match e with LibyuvWrite _ => true | _ => false end.
Definition is_error (e : Event) : bool :=
  match e with ClientOnError _ => true | _ => false end.
Definition is_delivery (e : Event) : bool :=
  match e with ClientOnIncomingCapturedBufferExt _ _ _ _ => true | _ => false end.
Definition is_started (e : Event) : bool :=
  match e with ClientOnStarted => true | _ => false end.
Definition is_next_frame_request (e : Event) : bool :=
  match e with ToStream _ GetNextFrameRequest => true | _ => false end.

Definition count (p : Event -> bool) (log : list Event) : nat :=
  length (filter p log).

(** [occurs_before p q log]: some event of class [p] is followed, later in
    the log, by an event of class [q]. *)
Fixpoint occurs_before (p q : Event -> bool) (log : list Event) : bool :=
  match log with
  | [] => false
  | e :: rest => (p e && existsb q rest) || occurs_before p q rest
  end.

(** The width and height a conversion routine is called with. *)
Definition call_output_size (c : LibyuvCall) : Size :=
  match c with
  | I420Copy _ _ _ _ _ _ _ _ _ _ _ _ w h => mkSize w h
  | NV12ToI420 _ _ _ _ _ _ _ _ _ _ w h => mkSize w h
  end.

(** The end of every source plane a conversion routine is handed, for
    planes of [ch] rows (chroma planes: [ch / 2] rows of their own
    stride, computed as the converter does). *)
Definition source_planes_end (c : LibyuvCall) (ch : Z) : Z :=
  match c with
  | I420Copy sy ssy su ssu sv ssv _ _ _ _ _ _ _ _ =>
      Z.max (sy + ssy * ch) (Z.max (su + ssu * ch / 2) (sv + ssv * ch / 2))
  | NV12ToI420 sy ssy suv ssuv _ _ _ _ _ _ _ _ =>
      Z.max (sy + ssy * ch) (suv + ssuv * ch / 2)
  end.

(** A mapping of [size] bytes at [address] in the address space of a
    process: user mappings lie in the lower half of the 64-bit space, so
    the address just after one is computed without wrap-around. *)
Definition in_user_memory (address size : Z) : Prop :=
  0 <= address /\ 0 <= size /\ address + size <= 2 ^ 63.

(** An outcome with earlier operations put in front of its log. *)
Definition prepend_log {A} (l : list Event) (o : Outcome A) : Outcome A :=
  match o with
  | Done a d l' => Done a d (l ++ l')
  | Fault f l' => Fault f (l ++ l')
  end.

(** [r] is the least even integer not below [v]. *)
Definition least_even_not_below (v r : Z) : Prop :=
  Z.even r = true /\ v <= r /\
  (forall e, Z.even e = true -> v <= e -> r <= e).

(** The fault the per-frame handler stops with when the conversion
    aborts. *)
Definition fault_of_abort (a : ConvertAbort) : FaultKind :=
  match a with
  | AbortDestinationCheck => CheckFailure DestinationCheck
  | AbortSourceCheck => CheckFailure SourceCheck
  | AbortNotReached => DcheckFailure
  end.

(** The ways the per-frame handler can end, in the order of its tests. *)
Inductive FrameOutcome (d : Device) (fi : FrameInfo) (reply : ReserveReply)
  : Outcome unit -> Prop :=
| NoClient :
    client_ d = false ->
    FrameOutcome d fi reply (Fault DcheckFailure [])
| ReaderNotReady :
    client_ d = true -> buffer_reader_ d = None ->
    FrameOutcome d fi reply (Done tt d [])
| InvalidIndex reader :
    client_ d = true -> buffer_reader_ d = Some reader ->
    num_buffers reader <= to_size_t (buffer_index fi) ->
    FrameOutcome d fi reply
      (Done tt (torn_down d) [ClientOnError kFuchsiaSysmemInvalidBufferIndex])
| UndefinedLayout reader :
    client_ d = true -> buffer_reader_ d = Some reader ->
    to_size_t (buffer_index fi) < num_buffers reader ->
    (forall cw ch stride,
        ~ coded_layout (image_format_constraints (buffer_settings reader)) cw ch stride) ->
    FrameOutcome d fi reply (Fault DivisionByZero [])
| ReservationFailed reader cw ch stride :
    client_ d = true -> buffer_reader_ d = Some reader ->
    to_size_t (buffer_index fi) < num_buffers reader ->
    coded_layout (image_format_constraints (buffer_settings reader)) cw ch stride ->
    reserve_result reply <> kSucceeded ->
    FrameOutcome d fi reply (Done tt d [reserve_event d cw ch])
| MappingFailed reader cw ch stride :
    client_ d = true -> buffer_reader_ d = Some reader ->
    to_size_t (buffer_index fi) < num_buffers reader ->
    coded_layout (image_format_constraints (buffer_settings reader)) cw ch stride ->
    reserve_result reply = kSucceeded ->
    span_size (GetMappingForBuffer reader (to_size_t (buffer_index fi))) = 0 ->
    FrameOutcome d fi reply
      (Done tt (torn_down d)
            [reserve_event d cw ch; ClientOnError kFuchsiaFailedToMapSysmemBuffer])
| BufferTooSmall reader cw ch stride :
    client_ d = true -> buffer_reader_ d = Some reader ->
    to_size_t (buffer_index fi) < num_buffers reader ->
    coded_layout (image_format_constraints (buffer_settings reader)) cw ch stride ->
    reserve_result reply = kSucceeded ->
    span_size (GetMappingForBuffer reader (to_size_t (buffer_index fi))) <> 0 ->
    span_size (GetMappingForBuffer reader (to_size_t (buffer_index fi))) < src_buffer_size ch stride ->
    FrameOutcome d fi reply
      (Done tt (torn_down d)
            [reserve_event d cw ch; ClientOnError kFuchsiaSysmemInvalidBufferSize])
| ConversionAborted reader cw ch stride abort :
    client_ d = true -> buffer_reader_ d = Some reader ->
    to_size_t (buffer_index fi) < num_buffers reader ->
    coded_layout (image_format_constraints (buffer_settings reader)) cw ch stride ->
    reserve_result reply = kSucceeded ->
    src_buffer_size ch stride <= span_size (GetMappingForBuffer reader (to_size_t (buffer_index fi))) ->
    conversion_abort
      (CopyAndConvertFrame
         (GetMappingForBuffer reader (to_size_t (buffer_index fi)))
         (pixel_format_type (image_format_constraints (buffer_settings reader)))
         stride ch (buffer_handle reply)
         (output_size_of (visible_size_of d cw ch))) = Some abort ->
    FrameOutcome d fi reply (Fault (fault_of_abort abort) [reserve_event d cw ch])
| Delivered reader cw ch stride call :
    client_ d = true -> buffer_reader_ d = Some reader ->
    to_size_t (buffer_index fi) < num_buffers reader ->
    coded_layout (image_format_constraints (buffer_settings reader)) cw ch stride ->
    reserve_result reply = kSucceeded ->
    span_size (GetMappingForBuffer reader (to_size_t (buffer_index fi))) <> 0 ->
    src_buffer_size ch stride <= span_size (GetMappingForBuffer reader (to_size_t (buffer_index fi))) ->
    CopyAndConvertFrame
      (GetMappingForBuffer reader (to_size_t (buffer_index fi)))
      (pixel_format_type (image_format_constraints (buffer_settings reader)))
      stride ch (buffer_handle reply)
      (output_size_of (visible_size_of d cw ch)) = Converted call ->
    FrameOutcome d fi reply
      (Done tt d [reserve_event d cw ch; LibyuvWrite call; delivery_event d fi cw ch]).

(** ** Sample data

    A 640x480 pool of two buffers in each supported layout, and frames of
    an end-to-end run. *)

Definition constraints_640x480 (layout : PixelFormatType) : ImageFormatConstraints :=
  {| pixel_format_type := layout;
     min_coded_width := 640; required_max_coded_width := 640;
     coded_width_divisor := 1;
     min_coded_height := 480; required_max_coded_height := 480;
     coded_height_divisor := 1;
     min_bytes_per_row := 640; bytes_per_row_divisor := 1 |}.

(** Spans of the given sizes, 16 MiB apart from [address] on. *)
Fixpoint spans_from (address : Z) (sizes : list Z) : list Span :=
  match sizes with
  | [] => []
  | size :: rest =>
      {| span_data := address; span_size := size |}
      :: spans_from (address + 16777216) rest
  end.

Definition reader_640x480 (layout : PixelFormatType) (sizes : list Z)
  : SysmemBufferReader :=
  {| buffer_settings :=
       {| has_image_format_constraints := true;
          image_format_constraints := constraints_640x480 layout |};
     mappings := spans_from 1073741824 sizes |}.

Definition full_reader : SysmemBufferReader :=
  reader_640x480 I420 [460800; 460800].

(** A pool whose first buffer is one byte short of 640 * 480 * 3 / 2. *)
Definition short_reader : SysmemBufferReader :=
  reader_640x480 I420 [460799; 460800].

(** An output buffer of [size] bytes mapped at address [2^31]. *)
Definition output_buffer (size : Z) : BufferHandle :=
  {| data := 2147483648; mapped_size := size |}.

Definition reserved (size : Z) : ReserveReply :=
  {| reserve_result := kSucceeded; buffer_handle := output_buffer size |}.

Definition refused : ReserveReply :=
  {| reserve_result := kMaxBufferCountExceeded;
     buffer_handle := {| data := 0; mapped_size := 0 |} |}.

Definition frame_at (index nanos : Z) : FrameInfo :=
  {| buffer_index := index; timestamp := nanos |}.

(** A started device that holds [reader]. *)
Definition streaming (reader : SysmemBufferReader) : Device :=
  {| device_ := true; stream_ := true; client_ := true;
     start_time_ := 5000000; frames_received_ := 0; frame_size_ := None;
     buffer_collection_creator_ := true;
     buffer_collection_ := Some {| pool_id := 1 |};
     buffer_reader_ := Some reader; started_ := true |}.

(** A pool whose constraints make [coded_height * stride * 3] wrap
    around in [size_t]: 2865791255 rows of 2145625464 bytes, one buffer
    with a mapping of 4096 bytes. *)
Definition wrapping_reader : SysmemBufferReader :=
  {| buffer_settings :=
       {| has_image_format_constraints := true;
          image_format_constraints :=
            {| pixel_format_type := I420;
               min_coded_width := 2; required_max_coded_width := 2;
               coded_width_divisor := 1;
               min_coded_height := 2865791255;
               required_max_coded_height := 2865791255;
               coded_height_divisor := 1;
               min_bytes_per_row := 2145625464;
               bytes_per_row_divisor := 1 |} |};
     mappings := spans_from 1073741824 [4096] |}.

(** An NV12 pool whose constraints round up to [2^32] rows of [2^32]
    bytes (4294967295 rounded up to a multiple of 2), one buffer with a
    mapping of a single byte. *)
Definition overflowing_nv12_reader : SysmemBufferReader :=
  {| buffer_settings :=
       {| has_image_format_constraints := true;
          image_format_constraints :=
            {| pixel_format_type := NV12;
               min_coded_width := 2; required_max_coded_width := 2;
               coded_width_divisor := 1;
               min_coded_height := 4294967295;
               required_max_coded_height := 4294967295;
               coded_height_divisor := 2;
               min_bytes_per_row := 4294967295;
               bytes_per_row_divisor := 2 |} |};
     mappings := spans_from 1073741824 [1] |}.

(** The same device once the stream has reported a resolution. *)
Definition with_hint (w h : Z) (d : Device) : Device :=
  set_frame_size_ (Some (gfx_Size w h)) d.

(** Streaming devices whose stream has reported the resolutions
    2147483647x3 and 65536x65536. *)
Definition odd_maximal_hint : Device :=
  with_hint 2147483647 3 (streaming full_reader).

Definition huge_hint : Device :=
  with_hint 65536 65536 (streaming full_reader).

(** A start followed by one successful negotiation round. *)
Definition negotiation (now : Z) (pool : Z) (reader : SysmemBufferReader)
  : list Input :=
  [ CallAllocateAndStart PIXEL_FORMAT_I420 now;
    BufferCollectionResult;
    BufferCollectionCreated {| pool_id := pool |};
    BufferReaderCreated reader ].

(** Start, negotiation of a 640x480 I420 pool of two buffers, and three
    frames captured 0 ms, 33 ms and 66 ms after the start. *)
Definition end_to_end : list Input :=
  negotiation 5000000 1 full_reader ++
  [ NextFrameResult (frame_at 0 5000000000) (reserved 460800);
    NextFrameResult (frame_at 1 5033000000) (reserved 460800);
    NextFrameResult (frame_at 0 5066000000) (reserved 460800) ].

(** The frame rates of the frames delivered in a log, in order. *)
Definition delivered_rates (log : list Event) : list Q :=
  flat_map (fun e =>
              match e with
              | ClientOnIncomingCapturedBufferExt format _ _ _ => [frame_rate format]
              | _ => []
              end) log.

(** The operations of the per-frame handler on the client and on the
    destination buffer. *)
Definition is_processing (e : Event) : bool :=
  match e with
  | ClientReserveOutputBuffer _ _ => true
  | ClientOnError _ => true
  | ClientOnIncomingCapturedBufferExt _ _ _ _ => true
  | LibyuvWrite _ => true
  | _ => false
  end.

(** ** Vocabulary of the further properties *)

(** The destination planes a conversion routine is handed. *)
Definition call_dst_y (c : LibyuvCall) : Z :=
  match c with
  | I420Copy _ _ _ _ _ _ dy _ _ _ _ _ _ _ => dy
  | NV12ToI420 _ _ _ _ dy _ _ _ _ _ _ _ => dy
  end.
Definition call_dst_u (c : LibyuvCall) : Z :=
  match c with
  | I420Copy _ _ _ _ _ _ _ _ du _ _ _ _ _ => du
  | NV12ToI420 _ _ _ _ _ _ du _ _ _ _ _ => du
  end.
Definition call_dst_v (c : LibyuvCall) : Z :=
  match c with
  | I420Copy _ _ _ _ _ _ _ _ _ _ dv _ _ _ => dv
  | NV12ToI420 _ _ _ _ _ _ _ _ dv _ _ _ => dv
  end.
Definition call_dst_stride_y (c : LibyuvCall) : Z :=
  match c with
  | I420Copy _ _ _ _ _ _ _ sy _ _ _ _ _ _ => sy
  | NV12ToI420 _ _ _ _ _ sy _ _ _ _ _ _ => sy
  end.
Definition call_dst_stride_u (c : LibyuvCall) : Z :=
  match c with
  | I420Copy _ _ _ _ _ _ _ _ _ su _ _ _ _ => su
  | NV12ToI420 _ _ _ _ _ _ _ su _ _ _ _ => su
  end.
Definition call_dst_stride_v (c : LibyuvCall) : Z :=
  match c with
  | I420Copy _ _ _ _ _ _ _ _ _ _ _ sv _ _ => sv
  | NV12ToI420 _ _ _ _ _ _ _ _ _ sv _ _ => sv
  end.

(** The same call with the two source chroma planes exchanged. *)
Definition swap_source_chroma (c : LibyuvCall) : LibyuvCall :=
  match c with
  | I420Copy sy ssy su ssu sv ssv dy dsy du dsu dv dsv w h =>
      I420Copy sy ssy sv ssu su ssv dy dsy du dsu dv dsv w h
  | NV12ToI420 _ _ _ _ _ _ _ _ _ _ _ _ => c
  end.

(** Requests to the stream and calls on the client. *)
Definition is_stream_request (e : Event) : bool :=
  match e with
  | ToStream _ _ => true
  | DeviceConnectToStream _ => true
  | _ => false
  end.
Definition is_reservation (e : Event) : bool :=
  match e with ClientReserveOutputBuffer _ _ => true | _ => false end.

Definition is_start (i : Input) : bool :=
  match i with CallAllocateAndStart _ _ => true | _ => false end.

(** The connection state the member functions keep consistent: pool
    creator, pool, reader and resolution hint exist only while the stream
    is bound, and a bound stream has a client. *)
Definition connection_consistent (d : Device) : Prop :=
  (stream_ d = false ->
   buffer_collection_creator_ d = false /\ buffer_collection_ d = None /\
   buffer_reader_ d = None /\ frame_size_ d = None) /\
  (stream_ d = true -> client_ d = true).

(** A reader the device may keep: one whose settings carry image format
    constraints with a supported pixel format. *)
Definition usable_reader (r : SysmemBufferReader) : Prop :=
  has_image_format_constraints (buffer_settings r) = true /\
  IsSupportedPixelFormat
    (pixel_format_type (image_format_constraints (buffer_settings r))) = true.

(** The reference times of the frames delivered in a log, and of the
    frames handed to the device in a run, in order. *)
Definition delivered_references (log : list Event) : list Z :=
  flat_map (fun e =>
              match e with
              | ClientOnIncomingCapturedBufferExt _ reference _ _ => [reference]
              | _ => []
              end) log.

Definition frame_references (inputs : list Input) : list Z :=
  flat_map (fun i =>
              match i with
              | NextFrameResult frame_info _ => [FromZxTime (timestamp frame_info)]
              | _ => []
              end) inputs.

(** [Subsequence l1 l2]: [l1] is [l2] with some elements left out. *)
Inductive Subsequence {A : Type} : list A -> list A -> Prop :=
| SubNil : Subsequence [] []
| SubSkip l1 l2 a : Subsequence l1 l2 -> Subsequence l1 (a :: l2)
| SubKeep l1 l2 a : Subsequence l1 l2 -> Subsequence (a :: l1) (a :: l2).

(** What every input preserves, from the construction on. *)
Definition run_invariant (d : Device) : Prop :=
  connection_consistent d /\
  (forall r, buffer_reader_ d = Some r -> usable_reader r).

(** A device without stream, pool creator or pool: stopped, or torn down
    by an error. *)
Definition disconnected (d : Device) : Prop :=
  stream_ d = false /\ buffer_collection_creator_ d = false /\
  buffer_collection_ d = None.

(** The frame callbacks of a list of frames with the client's answers. *)
Definition frame_inputs (frames : list (FrameInfo * ReserveReply)) : list Input :=
  map (fun f => NextFrameResult (fst f) (snd f)) frames.

(** [deliveries_after_started seen log]: every delivery in [log] comes
    after an [OnStarted], [seen] telling whether one came before the
    log. *)
Fixpoint deliveries_after_started (seen : bool) (log : list Event) : bool :=
  match log with
  | [] => true
  | e :: rest =>
      (if is_delivery e then seen else true)
      && deliveries_after_started (seen || is_started e) rest
  end.

(** What links the started flag to the [OnStarted] signals seen so far:
    a set flag means the signal was given, and a reader is held only by
    a started device. *)
Definition started_seen (d : Device) (seen : bool) : Prop :=
  (started_ d = true -> seen = true) /\
  (forall r, buffer_reader_ d = Some r -> started_ d = true).

(** * Properties *)

(** ** Facts about the machine arithmetic *)

Lemma to_size_t_small z : 0 <= z < SIZE_MODULUS -> to_size_t z = z.
Proof. intros H. unfold to_size_t. now apply Z.mod_small. Qed.

Lemma to_size_t_range z : 0 <= to_size_t z < SIZE_MODULUS.
Proof. unfold to_size_t, SIZE_MODULUS. apply Z.mod_pos_bound. lia. Qed.

Lemma to_int_small z : - 2 ^ 31 <= z <= INT_MAX -> to_int z = z.
Proof.
  intros H. unfold to_int, INT_MAX in *.
  rewrite Z.mod_small; lia.
Qed.

Lemma to_int_range z : - 2 ^ 31 <= to_int z <= INT_MAX.
Proof.
  unfold to_int, INT_MAX.
  pose proof (Z.mod_pos_bound (z + 2 ^ 31) (2 ^ 32) ltac:(lia)). lia.
Qed.

(** Truncation to [int] never enlarges a non-negative value. *)
Lemma to_int_le z : 0 <= z -> to_int z <= z.
Proof.
  intros H. destruct (Z_le_gt_dec z INT_MAX) as [Hle | Hgt].
  - rewrite to_int_small; unfold INT_MAX in *; lia.
  - pose proof (to_int_range z). lia.
Qed.

Lemma size_mul_small a b : 0 <= a * b < SIZE_MODULUS -> size_mul a b = a * b.
Proof. intros H. unfold size_mul. now apply to_size_t_small. Qed.

Lemma RoundUp_range v a r : RoundUp v a = Some r -> 0 <= r < SIZE_MODULUS.
Proof.
  unfold RoundUp. destruct (a =? 0); [discriminate |].
  intros H. injection H as <-. apply to_size_t_range.
Qed.

(** ** Equations of the small member functions *)

Lemma DisconnectStream_eq d : DisconnectStream d = Done tt (torn_down d) [].
Proof. reflexivity. Qed.

Lemma OnError_eq e d :
  OnError e d =
  Done tt (torn_down d) (if client_ d then [ClientOnError e] else []).
Proof.
  unfold OnError, bind. rewrite DisconnectStream_eq. unfold this. cbn.
  destruct (client_ d); reflexivity.
Qed.

Lemma StopAndDeAllocate_eq d :
  StopAndDeAllocate d = Done tt (set_client_ false (torn_down d)) [].
Proof. reflexivity. Qed.

Lemma ReceiveNextFrame_eq d :
  ReceiveNextFrame d = Done tt d [ToStream (stream_ d) GetNextFrameRequest].
Proof. reflexivity. Qed.

Lemma coded_layout_functional f cw ch stride cw' ch' stride' :
  coded_layout f cw ch stride -> coded_layout f cw' ch' stride' ->
  cw = cw' /\ ch = ch' /\ stride = stride'.
Proof.
  intros (H1 & H2 & H3) (H1' & H2' & H3').
  rewrite H1 in H1'. injection H1' as <-.
  rewrite H2 in H2'. injection H2' as <-.
  rewrite H3 in H3'. injection H3' as <-. auto.
Qed.

(** ** The per-frame handler, case by case *)

Lemma ProcessNewFrame_outcome d fi reply :
  FrameOutcome d fi reply (ProcessNewFrame fi reply d).
Proof.
  unfold ProcessNewFrame, bind, this.
  destruct (client_ d) eqn:Hc; cbn; [| now constructor].
  destruct (buffer_reader_ d) as [reader |] eqn:Hr; [| now constructor].
  destruct (Z.leb_spec (num_buffers reader) (to_size_t (buffer_index fi)))
    as [Hi | Hi].
  { rewrite OnError_eq, Hc. now apply InvalidIndex with reader. }
  set (f := image_format_constraints (buffer_settings reader)).
  destruct (RoundUp (Z.max (min_coded_width f) (required_max_coded_width f))
                    (coded_width_divisor f)) as [cw |] eqn:Hw; cbn;
    [| apply UndefinedLayout with reader; auto;
       intros ? ? ? (H & _); fold f in H; congruence ].
  destruct (RoundUp (Z.max (min_coded_height f) (required_max_coded_height f))
                    (coded_height_divisor f)) as [ch |] eqn:Hh; cbn;
    [| apply UndefinedLayout with reader; auto;
       intros ? ? ? (_ & H & _); fold f in H; congruence ].
  destruct (RoundUp (Z.max (to_size_t (min_bytes_per_row f)) cw)
                    (bytes_per_row_divisor f)) as [stride |] eqn:Hs; cbn;
    [| apply UndefinedLayout with reader; auto;
       intros cw' ? ? (H1 & _ & H); fold f in H1, H;
       assert (cw' = cw) by congruence; subst; congruence ].
  assert (Hlay : coded_layout f cw ch stride) by (repeat split; assumption).
  change (match frame_size_ d with
          | Some s => s
          | None => gfx_Size (to_int cw) (to_int ch)
          end) with (visible_size_of d cw ch).
  change (gfx_Size (round_to_even (width (visible_size_of d cw ch)))
                   (round_to_even (height (visible_size_of d cw ch))))
    with (output_size_of (visible_size_of d cw ch)).
  destruct (reserve_result reply) eqn:Hres;
    try (apply ReservationFailed with reader stride; auto; congruence).
  set (span := GetMappingForBuffer reader (to_size_t (buffer_index fi))).
  destruct (Z.eqb_spec (span_size span) 0) as [H0 | H0].
  { rewrite OnError_eq. cbn. rewrite Hc.
    now apply MappingFailed with reader stride. }
  destruct (Z.ltb_spec (span_size span) (src_buffer_size ch stride)) as [Hlt | Hge].
  { rewrite OnError_eq. cbn. rewrite Hc.
    now apply BufferTooSmall with reader stride. }
  destruct (CopyAndConvertFrame span (pixel_format_type f) stride ch
              (buffer_handle reply) (output_size_of (visible_size_of d cw ch)))
    as [call | | |] eqn:Hconv; cbn.
  - now apply Delivered with reader stride.
  - apply (ConversionAborted d fi reply reader cw ch stride AbortDestinationCheck);
      auto. fold f span. now rewrite Hconv.
  - apply (ConversionAborted d fi reply reader cw ch stride AbortSourceCheck);
      auto. fold f span. now rewrite Hconv.
  - apply (ConversionAborted d fi reply reader cw ch stride AbortNotReached);
      auto. fold f span. now rewrite Hconv.
Qed.

(** What the per-frame handler can put in its log. *)
Lemma ProcessNewFrame_events d fi reply reader cw ch stride :
  buffer_reader_ d = Some reader ->
  coded_layout (image_format_constraints (buffer_settings reader)) cw ch stride ->
  forall e, In e (log_of (ProcessNewFrame fi reply d)) ->
    e = reserve_event d cw ch \/
    (exists err, e = ClientOnError err) \/
    (exists call,
        e = LibyuvWrite call /\
        CopyAndConvertFrame
          (GetMappingForBuffer reader (to_size_t (buffer_index fi)))
          (pixel_format_type (image_format_constraints (buffer_settings reader)))
          stride ch (buffer_handle reply)
          (output_size_of (visible_size_of d cw ch)) = Converted call) \/
    e = delivery_event d fi cw ch.
Proof.
  intros Hr Hlay e Hin.
  pose proof (ProcessNewFrame_outcome d fi reply) as Ho.
  destruct Ho as
      [ Hc' | Hc' Hr' | r Hc' Hr' Hi' | r Hc' Hr' Hi' Hno
      | r cw' ch' s' Hc' Hr' Hi' Hlay' Hres'
      | r cw' ch' s' Hc' Hr' Hi' Hlay' Hres' H0'
      | r cw' ch' s' Hc' Hr' Hi' Hlay' Hres' H0' Hlt'
      | r cw' ch' s' fk Hc' Hr' Hi' Hlay' Hres' Hge' Hw'
      | r cw' ch' s' call Hc' Hr' Hi' Hlay' Hres' H0' Hge' Hconv' ];
    cbn in Hin;
    try (rewrite Hr in Hr'; injection Hr' as <-);
    try (destruct (coded_layout_functional _ _ _ _ _ _ _ Hlay Hlay')
          as (<- & <- & <-));
    repeat match goal with
           | H : _ \/ _ |- _ => destruct H
           | H : False |- _ => destruct H
           end; subst; eauto 6.
Qed.

(** ** Undersized source buffers *)

(** What the size test of the per-frame handler does: a span below
    [src_buffer_size], the bound as [size_t] arithmetic computes it, is
    reported as [kFuchsiaSysmemInvalidBufferSize] and tears the stream
    down, with nothing stored into the reserved buffer; a conversion
    routine is called only on a span at least that long. *)
Lemma span_below_size_test_is_rejected :
  (forall d fi reply reader cw ch stride,
      client_ d = true ->
      buffer_reader_ d = Some reader ->
      to_size_t (buffer_index fi) < num_buffers reader ->
      coded_layout (image_format_constraints (buffer_settings reader)) cw ch stride ->
      reserve_result reply = kSucceeded ->
      span_size (GetMappingForBuffer reader (to_size_t (buffer_index fi))) <> 0 ->
      span_size (GetMappingForBuffer reader (to_size_t (buffer_index fi)))
        < src_buffer_size ch stride ->
      ProcessNewFrame fi reply d =
      Done tt (torn_down d)
           [reserve_event d cw ch; ClientOnError kFuchsiaSysmemInvalidBufferSize])
  /\
  (forall d fi reply call,
      In (LibyuvWrite call) (log_of (ProcessNewFrame fi reply d)) ->
      exists reader cw ch stride,
        buffer_reader_ d = Some reader /\
        coded_layout (image_format_constraints (buffer_settings reader)) cw ch stride /\
        src_buffer_size ch stride
          <= span_size (GetMappingForBuffer reader (to_size_t (buffer_index fi)))).
Proof.
  split.
  - intros d fi reply reader cw ch stride Hc Hr Hi Hlay Hres H0 Hlt.
    pose proof (ProcessNewFrame_outcome d fi reply) as Ho.
    inversion Ho as
      [ Hc' | Hc' Hr' | r Hc' Hr' Hi' | r Hc' Hr' Hi' Hno
      | r cw' ch' s' Hc' Hr' Hi' Hlay' Hres'
      | r cw' ch' s' Hc' Hr' Hi' Hlay' Hres' H0'
      | r cw' ch' s' Hc' Hr' Hi' Hlay' Hres' H0' Hlt'
      | r cw' ch' s' fk Hc' Hr' Hi' Hlay' Hres' Hge' Hw'
      | r cw' ch' s' call Hc' Hr' Hi' Hlay' Hres' H0' Hge' Hconv' ];
      try congruence;
      try (rewrite Hr in Hr'; injection Hr' as <-).
    + lia.
    + exfalso. now apply (Hno cw ch stride).
    + destruct (coded_layout_functional _ _ _ _ _ _ _ Hlay Hlay') as (<- & <- & <-).
      reflexivity.
    + destruct (coded_layout_functional _ _ _ _ _ _ _ Hlay Hlay') as (<- & <- & <-).
      lia.
    + destruct (coded_layout_functional _ _ _ _ _ _ _ Hlay Hlay') as (<- & <- & <-).
      lia.
  - intros d fi reply call Hin.
    pose proof (ProcessNewFrame_outcome d fi reply) as Ho.
    destruct Ho; cbn in Hin;
      repeat match goal with
             | H : _ \/ _ |- _ => destruct H
             | H : False |- _ => destruct H
             end;
      try discriminate.
    eauto 10.
Qed.

(** Within the range of [size_t] the bound of the size test is
    [coded_height * stride * 3 / 2]. *)
Lemma src_buffer_size_in_range ch stride :
  0 <= ch * stride -> ch * stride * 3 < SIZE_MODULUS ->
  src_buffer_size ch stride = ch * stride * 3 / 2.
Proof.
  intros Hp Hfit. unfold src_buffer_size.
  rewrite (size_mul_small ch stride) by lia.
  now rewrite size_mul_small by lia.
Qed.

(** C1.  The design document has every span shorter than
    [coded_height * stride * 3 / 2] rejected as too small; the code does
    not do so once the product overflows.  The handler computes
    [coded_height * stride * 3 / 2] in [size_t], and the product wraps
    around.  For a negotiated layout of 2865791255 rows of 2145625464
    bytes the bound it compares with is 172, so a span of 4096 bytes,
    far below [coded_height * stride * 3 / 2], is not reported as
    [kFuchsiaSysmemInvalidBufferSize]: the handler goes on to the
    conversion, which aborts in its own source check.  For an NV12 layout
    of [2^32] rows of [2^32] bytes the bound is 0 and the plane sizes of
    the converter wrap around as well: a span of one byte is handed to
    [NV12ToI420] and the frame is delivered. *)
Theorem undersized_source_passes_size_test :
  (coded_layout (image_format_constraints (buffer_settings wrapping_reader))
                2 2865791255 2145625464 /\
   span_size (GetMappingForBuffer wrapping_reader 0) = 4096 /\
   4096 < 2865791255 * 2145625464 * 3 / 2 /\
   src_buffer_size 2865791255 2145625464 = 172 /\
   ProcessNewFrame (frame_at 0 5033000000) (reserved 6)
                   (with_hint 2 2 (streaming wrapping_reader))
   = Fault (CheckFailure SourceCheck)
           [ClientReserveOutputBuffer (mkSize 2 2) PIXEL_FORMAT_I420])
  /\
  (coded_layout (image_format_constraints (buffer_settings overflowing_nv12_reader))
                2 4294967296 4294967296 /\
   span_size (GetMappingForBuffer overflowing_nv12_reader 0) = 1 /\
   1 < 4294967296 * 4294967296 * 3 / 2 /\
   src_buffer_size 4294967296 4294967296 = 0 /\
   ProcessNewFrame (frame_at 0 5033000000) (reserved 6)
                   (with_hint 2 2 (streaming overflowing_nv12_reader))
   = Done tt (with_hint 2 2 (streaming overflowing_nv12_reader))
          [ClientReserveOutputBuffer (mkSize 2 2) PIXEL_FORMAT_I420;
           LibyuvWrite (NV12ToI420 1073741824 0 1073741824 0
                                   2147483648 2 2147483652 1 2147483653 1 2 2);
           delivery_event (with_hint 2 2 (streaming overflowing_nv12_reader))
                          (frame_at 0 5033000000) 2 4294967296]).
Proof.
  split.
  - split; [repeat split; reflexivity |].
    split; [reflexivity |].
    split; [reflexivity |].
    split; vm_compute; reflexivity.
  - split; [repeat split; reflexivity |].
    split; [reflexivity |].
    split; [reflexivity |].
    split; vm_compute; reflexivity.
Qed.

(** ** The pixel converter *)

Lemma ptr_add_small p n : 0 <= p + n < SIZE_MODULUS -> ptr_add p n = p + n.
Proof. intros H. unfold ptr_add. now apply Z.mod_small. Qed.

Lemma in_user_memory_end address size :
  in_user_memory address size -> ptr_add address size = address + size.
Proof.
  intros (Ha & Hs & Hend). apply ptr_add_small.
  unfold SIZE_MODULUS. lia.
Qed.

Lemma CopyAndConvertFrame_dst_check span layout stride ch handle out :
  CopyAndConvertFrame span layout stride ch handle out = DstCheckFailed <->
  handle_end handle < dst_plane_end handle out.
Proof.
  unfold CopyAndConvertFrame, dst_plane_end, handle_end.
  cbv zeta.
  destruct (Z.leb_spec
              (ptr_add
                 (ptr_add
                    (ptr_add (data handle)
                             (to_size_t (int_mul (width out) (height out))))
                    (to_size_t (int_mul (width out) (height out)) / 4))
                 (to_size_t (int_mul (width out) (height out)) / 4))
              (ptr_add (data handle) (mapped_size handle)))
    as [Hle | Hgt]; cbn [negb].
  - split; [| lia].
    destruct layout; try discriminate;
      repeat match goal with
             | |- context [if ?b then _ else _] => destruct b
             end; discriminate.
  - split; [lia | reflexivity].
Qed.

Lemma CopyAndConvertFrame_output_size span layout stride ch handle out call :
  CopyAndConvertFrame span layout stride ch handle out = Converted call ->
  call_output_size call = out.
Proof.
  unfold CopyAndConvertFrame. cbv zeta.
  destruct out as [w h].
  destruct layout;
    repeat match goal with
           | |- context [if ?b then _ else _] => destruct b
           end; try discriminate;
    intros H; injection H as <-; reflexivity.
Qed.

(** For even dimensions whose product fits an [int], the two quarter
    planes add up to half the luma plane; their end is computed without
    wrap-around when it lies in the lower half of the address space. *)
Lemma dst_plane_end_even handle out :
  0 <= width out -> 0 <= height out ->
  Z.even (width out) = true -> Z.even (height out) = true ->
  width out * height out <= INT_MAX ->
  0 <= data handle <= 2 ^ 63 ->
  dst_plane_end handle out
  = data handle + (width out * height out + width out * height out / 2).
Proof.
  intros Hw Hh Ew Eh Hfit Hd. unfold dst_plane_end, int_mul. cbv zeta.
  assert (Hp : 0 <= width out * height out) by (apply Z.mul_nonneg_nonneg; lia).
  rewrite to_int_small by (unfold INT_MAX in *; lia).
  rewrite to_size_t_small by (unfold INT_MAX, SIZE_MODULUS in *; lia).
  apply Zeven_bool_iff in Ew, Eh.
  apply Zeven_ex in Ew, Eh. destruct Ew as [a Ha], Eh as [b Hb].
  rewrite Ha, Hb in *.
  replace (2 * a * (2 * b)) with (a * b * 4) in * by ring.
  rewrite Z.div_mul by lia.
  replace (a * b * 4) with (2 * (a * b) * 2) by ring.
  rewrite Z.div_mul by lia.
  assert (0 <= a * b) by lia.
  rewrite (ptr_add_small (data handle))
    by (unfold INT_MAX, SIZE_MODULUS in *; lia).
  rewrite (ptr_add_small (data handle + 2 * (a * b) * 2))
    by (unfold INT_MAX, SIZE_MODULUS in *; lia).
  rewrite ptr_add_small by (unfold INT_MAX, SIZE_MODULUS in *; lia).
  lia.
Qed.

Lemma half_stride_plane stride ch :
  0 <= stride -> 0 <= ch ->
  0 <= stride / 2 * ch / 2 /\ 2 * (stride / 2 * ch / 2) <= stride * ch / 2.
Proof.
  intros Hs Hc.
  assert (H2 : 0 <= stride / 2) by (apply Z.div_pos; lia).
  assert (Hq : 0 <= stride / 2 * ch) by (apply Z.mul_nonneg_nonneg; lia).
  assert (Hle : 2 * (stride / 2 * ch) <= stride * ch).
  { assert (2 * (stride / 2) <= stride) by (apply Z.mul_div_le; lia).
    replace (2 * (stride / 2 * ch)) with (2 * (stride / 2) * ch) by ring.
    apply Z.mul_le_mono_nonneg_r; lia. }
  split; [apply Z.div_pos; lia |].
  assert (0 <= stride * ch) by (apply Z.mul_nonneg_nonneg; lia).
  revert Hq Hle H. generalize (stride / 2 * ch) (stride * ch). intros q p Hq Hle Hp.
  Z.div_mod_to_equations. lia.
Qed.

Lemma src_buffer_size_exact ch stride :
  0 <= ch * stride -> ch * stride * 3 < SIZE_MODULUS ->
  src_buffer_size ch stride = stride * ch + stride * ch / 2.
Proof.
  intros Hp Hfit. unfold src_buffer_size.
  rewrite (size_mul_small ch stride) by lia.
  rewrite size_mul_small by lia.
  rewrite (Z.mul_comm stride ch).
  generalize dependent (ch * stride). intros p Hp Hfit.
  Z.div_mod_to_equations. lia.
Qed.

Lemma to_int_high stride :
  INT_MAX < stride < 2 ^ 32 -> to_int stride = stride - 2 ^ 32.
Proof.
  intros H. unfold to_int, INT_MAX in *.
  rewrite <- (Z.mod_add _ (-1)) by lia.
  rewrite Z.mod_small; lia.
Qed.

(** The size of the interleaved chroma plane, an [int], stays between 0
    and half the luma plane (when that half does not fit an [int], from
    [-2^31] on, which half the luma plane outweighs). *)
Lemma nv12_plane_bounds p :
  0 <= p ->
  - p <= to_int p <= p.
Proof.
  intros Hp.
  destruct (Z_le_gt_dec p INT_MAX) as [Hs | Hb].
  - rewrite to_int_small by (unfold INT_MAX in *; lia). lia.
  - pose proof (to_int_range p). unfold INT_MAX in *. lia.
Qed.

(** The size of the interleaved chroma plane when the stride is an
    unsigned 32-bit number above [INT_MAX]. *)
Lemma nv12_plane_high stride ch :
  INT_MAX < stride < 2 ^ 32 -> 0 <= ch ->
  - (stride * ch) <= to_int (size_mul (to_size_t (to_int stride)) ch / 2)
    <= stride * ch / 2.
Proof.
  intros Hs Hc.
  destruct (Z.eq_dec ch 0) as [-> | Hc0].
  { unfold size_mul. rewrite !Z.mul_0_r. cbn. lia. }
  destruct (Z.eq_dec ch 1) as [-> | Hc1].
  { rewrite (to_int_high stride Hs).
    unfold size_mul, to_size_t, to_int, SIZE_MODULUS, INT_MAX in *.
    rewrite !Z.mul_1_r. rewrite Z.mod_mod by lia.
    Z.div_mod_to_equations. lia. }
  pose proof (to_int_range (size_mul (to_size_t (to_int stride)) ch / 2)) as Hr.
  assert (2 ^ 32 <= stride * ch).
  { unfold INT_MAX in *.
    replace (2 ^ 32) with (2 ^ 31 * 2) by reflexivity.
    apply Z.mul_le_mono_nonneg; lia. }
  assert (2 ^ 31 <= stride * ch / 2).
  { apply Z.div_le_lower_bound; lia. }
  unfold INT_MAX in *. lia.
Qed.

(** The converter's check on the end of the source planes passes on a
    span of at least [coded_height * stride * 3 / 2] bytes, when nothing
    wraps around: the span lies in user memory, the stride is an unsigned
    32-bit number (so that half of it is an [int]) and
    [coded_height * stride * 3] is a [size_t]. *)
Lemma CopyAndConvertFrame_source_check
    (span : Span) (layout : PixelFormatType) (stride ch : Z)
    (handle : BufferHandle) (out : Size) :
  layout = I420 \/ layout = YV12 \/ layout = NV12 ->
  in_user_memory (span_data span) (span_size span) ->
  0 <= stride < 2 ^ 32 -> 0 <= ch ->
  ch * stride * 3 < SIZE_MODULUS ->
  src_buffer_size ch stride <= span_size span ->
  CopyAndConvertFrame span layout stride ch handle out <> SrcCheckFailed.
Proof.
  intros Hlayout Hmem Hs Hc Hfit Hspan.
  pose proof (in_user_memory_end _ _ Hmem) as Hend.
  destruct Hmem as (Hd0 & Hsz0 & Hd1).
  assert (Hp : 0 <= ch * stride) by (apply Z.mul_nonneg_nonneg; lia).
  rewrite src_buffer_size_exact in Hspan by assumption.
  destruct (half_stride_plane stride ch) as [Hq0 Hq]; [lia | lia |].
  assert (Hhalf : 0 <= stride / 2 < 2 ^ 31).
  { split; [apply Z.div_pos; lia | apply Z.div_lt_upper_bound; lia]. }
  assert (Hp2 : 0 <= stride * ch / 2 <= stride * ch).
  { rewrite (Z.mul_comm stride ch).
    split; [apply Z.div_pos; lia | apply Z.div_le_upper_bound; lia]. }
  assert (Hqle : 0 <= stride / 2 * ch <= stride * ch).
  { split; [apply Z.mul_nonneg_nonneg; lia |].
    apply Z.mul_le_mono_nonneg_r; [lia |].
    apply Z.div_le_upper_bound; lia. }
  assert (Hnv : - (stride * ch)
                <= to_int (size_mul (to_size_t (to_int stride)) ch / 2)
                <= stride * ch / 2).
  { destruct (Z_le_gt_dec stride INT_MAX) as [Hint | Hhigh].
    - rewrite (to_int_small stride) by (unfold INT_MAX in *; lia).
      rewrite (to_size_t_small stride) by (unfold SIZE_MODULUS in *; lia).
      rewrite (size_mul_small stride ch)
        by (rewrite (Z.mul_comm stride ch); unfold SIZE_MODULUS in *; lia).
      pose proof (nv12_plane_bounds (stride * ch / 2) (proj1 Hp2)). lia.
    - apply nv12_plane_high; lia. }
  unfold CopyAndConvertFrame. cbv zeta.
  rewrite (size_mul_small stride ch)
    by (rewrite (Z.mul_comm stride ch); unfold SIZE_MODULUS in *; lia).
  rewrite (to_int_small (stride / 2)) by (unfold INT_MAX in *; lia).
  rewrite (to_size_t_small (stride / 2)) by (unfold SIZE_MODULUS in *; lia).
  rewrite (size_mul_small (stride / 2) ch)
    by (rewrite (Z.mul_comm stride ch) in *; unfold SIZE_MODULUS in *; lia).
  rewrite Hend.
  rewrite (ptr_add_small (span_data span) (stride * ch))
    by (unfold SIZE_MODULUS in *; lia).
  rewrite (ptr_add_small (span_data span + stride * ch) (stride / 2 * ch / 2))
    by (unfold SIZE_MODULUS in *; lia).
  rewrite (ptr_add_small (span_data span + stride * ch)
                         (to_int (size_mul (to_size_t (to_int stride)) ch / 2)))
    by (unfold SIZE_MODULUS in *; lia).
  destruct (negb _); [discriminate |].
  destruct Hlayout as [-> | [-> | ->]]; cbv beta iota.
  - rewrite (ptr_add_small (span_data span + stride * ch + stride / 2 * ch / 2))
      by (unfold SIZE_MODULUS in *; lia).
    destruct (Z.leb_spec
                (span_data span + stride * ch + stride / 2 * ch / 2
                 + stride / 2 * ch / 2)
                (span_data span + span_size span))
      as [Hok | Hbad]; cbn [negb]; [discriminate | lia].
  - rewrite (ptr_add_small (span_data span + stride * ch) (stride / 2 * ch / 2))
      by (unfold SIZE_MODULUS in *; lia).
    destruct (Z.leb_spec
                (span_data span + stride * ch + stride / 2 * ch / 2)
                (span_data span + span_size span))
      as [Hok | Hbad]; cbn [negb]; [discriminate | lia].
  - destruct (Z.leb_spec
                (span_data span + stride * ch
                 + to_int (size_mul (to_size_t (to_int stride)) ch / 2))
                (span_data span + span_size span))
      as [Hok | Hbad]; cbn [negb]; [discriminate | lia].
Qed.

(** When the stride itself is an [int], as the conversion routines take
    it, every plane handed to them ends inside the span. *)
Lemma CopyAndConvertFrame_source_planes
    (span : Span) (layout : PixelFormatType) (stride ch : Z)
    (handle : BufferHandle) (out : Size) (call : LibyuvCall) :
  layout = I420 \/ layout = YV12 \/ layout = NV12 ->
  in_user_memory (span_data span) (span_size span) ->
  0 <= stride <= INT_MAX -> 0 <= ch ->
  ch * stride * 3 < SIZE_MODULUS ->
  src_buffer_size ch stride <= span_size span ->
  CopyAndConvertFrame span layout stride ch handle out = Converted call ->
  source_planes_end call ch <= span_data span + span_size span.
Proof.
  intros Hlayout Hmem Hs Hc Hfit Hspan.
  destruct Hmem as (Hd0 & Hsz0 & Hd1).
  assert (Hp : 0 <= ch * stride) by (apply Z.mul_nonneg_nonneg; lia).
  rewrite src_buffer_size_exact in Hspan by assumption.
  destruct (half_stride_plane stride ch) as [Hq0 Hq]; [lia | lia |].
  assert (Hhalf : 0 <= stride / 2 <= stride).
  { split; [apply Z.div_pos; lia | apply Z.div_le_upper_bound; lia]. }
  assert (Hp2 : 0 <= stride * ch / 2 <= stride * ch).
  { rewrite (Z.mul_comm stride ch).
    split; [apply Z.div_pos; lia | apply Z.div_le_upper_bound; lia]. }
  assert (Hqle : 0 <= stride / 2 * ch <= stride * ch).
  { split; [apply Z.mul_nonneg_nonneg; lia |].
    apply Z.mul_le_mono_nonneg_r; lia. }
  unfold CopyAndConvertFrame. cbv zeta.
  rewrite (size_mul_small stride ch)
    by (rewrite (Z.mul_comm stride ch); unfold SIZE_MODULUS in *; lia).
  rewrite (to_int_small (stride / 2)) by (unfold INT_MAX in *; lia).
  rewrite (to_int_small stride) by (unfold INT_MAX in *; lia).
  rewrite (to_size_t_small (stride / 2)) by (unfold INT_MAX, SIZE_MODULUS in *; lia).
  rewrite (size_mul_small (stride / 2) ch)
    by (rewrite (Z.mul_comm stride ch) in *; unfold SIZE_MODULUS in *; lia).
  rewrite (ptr_add_small (span_data span) (stride * ch))
    by (unfold SIZE_MODULUS in *; lia).
  rewrite (ptr_add_small (span_data span + stride * ch) (stride / 2 * ch / 2))
    by (unfold SIZE_MODULUS in *; lia).
  destruct (negb _); [discriminate |].
  destruct Hlayout as [-> | [-> | ->]];
    match goal with
    | |- context [if ?b then _ else _] => destruct b
    end; try discriminate;
    intros H; injection H as <-; cbn [source_planes_end]; lia.
Qed.

Lemma IsSupportedPixelFormat_cases layout :
  IsSupportedPixelFormat layout = true ->
  layout = I420 \/ layout = YV12 \/ layout = NV12.
Proof. destruct layout; cbn; auto; discriminate. Qed.

(** Within these ranges the handler's size test protects the
    converter's source check: the handler never stops in it. *)
Lemma source_check_holds_in_range d fi reply reader cw ch stride l :
  buffer_reader_ d = Some reader ->
  coded_layout (image_format_constraints (buffer_settings reader)) cw ch stride ->
  IsSupportedPixelFormat
    (pixel_format_type (image_format_constraints (buffer_settings reader))) = true ->
  in_user_memory
    (span_data (GetMappingForBuffer reader (to_size_t (buffer_index fi))))
    (span_size (GetMappingForBuffer reader (to_size_t (buffer_index fi)))) ->
  stride < 2 ^ 32 ->
  ch * stride * 3 < SIZE_MODULUS ->
  ProcessNewFrame fi reply d <> Fault (CheckFailure SourceCheck) l.
Proof.
  intros Hr Hlay Hsup Hmem Hs Hfit Heq.
  pose proof (ProcessNewFrame_outcome d fi reply) as Ho.
  rewrite Heq in Ho.
  inversion Ho as
      [ | | | | | |
      | r cw' ch' s' abort Hc' Hr' Hi' Hlay' Hres' Hge' Habort Hfault
      | ].
  rewrite Hr in Hr'. injection Hr' as <-.
  destruct (coded_layout_functional _ _ _ _ _ _ _ Hlay Hlay') as (<- & <- & <-).
  destruct abort; try discriminate.
  destruct Hlay as (_ & Hch & Hst).
  apply RoundUp_range in Hch, Hst.
  apply (CopyAndConvertFrame_source_check
           (GetMappingForBuffer reader (to_size_t (buffer_index fi)))
           (pixel_format_type (image_format_constraints (buffer_settings reader)))
           stride ch (buffer_handle reply)
           (output_size_of (visible_size_of d cw ch)));
    try lia; try assumption.
  - now apply IsSupportedPixelFormat_cases.
  - destruct (CopyAndConvertFrame _ _ _ _ _ _); cbn in Habort;
      try discriminate; reflexivity.
Qed.


(** ** Even rounding of the visible size *)

Lemma land_lnot_1 v : Z.land v (Z.lnot 1) = 2 * (v / 2).
Proof.
  rewrite <- Z.ldiff_land. change 1 with (Z.ones 1).
  rewrite Z.ldiff_ones_r by lia.
  rewrite Z.shiftr_div_pow2, Z.shiftl_mul_pow2 by lia.
  change (2 ^ 1) with 2. ring.
Qed.

Lemma round_to_even_spec v :
  0 <= v < INT_MAX -> round_to_even v = 2 * ((v + 1) / 2).
Proof.
  intros Hv. unfold round_to_even, int_add.
  rewrite to_int_small by (unfold INT_MAX in *; lia).
  apply land_lnot_1.
Qed.

Lemma round_to_even_least v :
  0 <= v < INT_MAX -> least_even_not_below v (round_to_even v).
Proof.
  intros Hv. rewrite round_to_even_spec by assumption.
  repeat split.
  - rewrite Z.even_mul. reflexivity.
  - Z.div_mod_to_equations. lia.
  - intros e He Hle. apply Z.even_spec in He. destruct He as [k ->].
    Z.div_mod_to_equations. lia.
Qed.

Lemma round_to_even_cases v :
  0 <= v < INT_MAX ->
  (Z.even v = true -> round_to_even v = v) /\
  (Z.even v = false -> round_to_even v = v + 1).
Proof.
  intros Hv. rewrite round_to_even_spec by assumption. split; intros He.
  - apply Z.even_spec in He. destruct He as [k ->].
    Z.div_mod_to_equations. lia.
  - assert (Ho : Z.odd v = true) by (rewrite <- Z.negb_even, He; reflexivity).
    apply Z.odd_spec in Ho. destruct Ho as [k ->].
    Z.div_mod_to_equations. lia.
Qed.

Lemma round_to_even_nonneg v : 0 <= v < INT_MAX -> 0 <= round_to_even v.
Proof.
  intros Hv. rewrite round_to_even_spec by assumption.
  Z.div_mod_to_equations. lia.
Qed.

Lemma output_size_of_eq vis :
  0 <= width vis < INT_MAX -> 0 <= height vis < INT_MAX ->
  output_size_of vis =
  mkSize (Z.land (width vis + 1) (Z.lnot 1)) (Z.land (height vis + 1) (Z.lnot 1)).
Proof.
  intros Hw Hh. unfold output_size_of, gfx_Size.
  pose proof (round_to_even_nonneg _ Hw). pose proof (round_to_even_nonneg _ Hh).
  rewrite !Z.max_r by assumption.
  unfold round_to_even, int_add.
  rewrite !to_int_small by (unfold INT_MAX in *; lia).
  reflexivity.
Qed.

(** While [w + 1] and [h + 1] are [int]s, the per-frame handler rounds
    the visible size [(w, h)] to [((w + 1) & ~1, (h + 1) & ~1)]: this is
    the size every conversion routine is called with and the frame size
    of every delivered format, and each component is the least even
    integer not below its input. *)
Lemma output_size_in_range d fi reply reader cw ch stride :
  buffer_reader_ d = Some reader ->
  coded_layout (image_format_constraints (buffer_settings reader)) cw ch stride ->
  0 <= width (visible_size_of d cw ch) < INT_MAX ->
  0 <= height (visible_size_of d cw ch) < INT_MAX ->
  let w := width (visible_size_of d cw ch) in
  let h := height (visible_size_of d cw ch) in
  let out := mkSize (Z.land (w + 1) (Z.lnot 1)) (Z.land (h + 1) (Z.lnot 1)) in
  (forall call,
      In (LibyuvWrite call) (log_of (ProcessNewFrame fi reply d)) ->
      call_output_size call = out) /\
  (forall format reference presentation rect,
      In (ClientOnIncomingCapturedBufferExt format reference presentation rect)
         (log_of (ProcessNewFrame fi reply d)) ->
      frame_size format = out) /\
  least_even_not_below w (width out) /\
  least_even_not_below h (height out) /\
  (Z.even w = true -> width out = w) /\
  (Z.even w = false -> width out = w + 1) /\
  (Z.even h = true -> height out = h) /\
  (Z.even h = false -> height out = h + 1).
Proof.
  intros Hr Hlay Hw Hh w h out.
  assert (Hout : output_size_of (visible_size_of d cw ch) = out)
    by (apply output_size_of_eq; assumption).
  assert (Hrw : width out = round_to_even w).
  { unfold out, round_to_even, int_add. cbn [width].
    rewrite to_int_small by (unfold w, INT_MAX in *; lia). reflexivity. }
  assert (Hrh : height out = round_to_even h).
  { unfold out, round_to_even, int_add. cbn [height].
    rewrite to_int_small by (unfold h, INT_MAX in *; lia). reflexivity. }
  rewrite Hrw, Hrh.
  pose proof (round_to_even_cases w Hw) as [Hwe Hwo].
  pose proof (round_to_even_cases h Hh) as [Hhe Hho].
  repeat split; try (apply round_to_even_least; assumption); try assumption.
  - intros call Hin.
    destruct (ProcessNewFrame_events d fi reply reader cw ch stride Hr Hlay _ Hin)
      as [He | [(err & He) | [(c & He & Hc) | He]]];
      try discriminate.
    injection He as <-.
    apply CopyAndConvertFrame_output_size in Hc. now rewrite Hc.
  - intros format reference presentation rect Hin.
    destruct (ProcessNewFrame_events d fi reply reader cw ch stride Hr Hlay _ Hin)
      as [He | [(err & He) | [(c & He & Hc) | He]]];
      try discriminate.
    unfold delivery_event in He. injection He as -> _ _ _.
    exact Hout.
Qed.

(** C7.  The design document has each destination dimension be the
    least even integer not below the visible one; the code does not
    round so at the upper end of [int]: [w + 1] is computed in [int],
    so for the odd width 2147483647 it
    wraps around to the least [int], [& ~1] leaves it there, and
    [gfx::Size] clamps the negative width to 0.  With a resolution hint
    of 2147483647x3 the handler reserves, converts and delivers a frame
    of size 0x4: the height is rounded to the next even number, the
    width is not the least even integer not below its input. *)
Theorem maximal_odd_width_is_rounded_to_zero :
  visible_size_of odd_maximal_hint 640 480 = mkSize 2147483647 3 /\
  Z.even 2147483647 = false /\
  round_to_even 2147483647 = - 2147483648 /\
  output_size_of (mkSize 2147483647 3) = mkSize 0 4 /\
  ProcessNewFrame (frame_at 0 5033000000) (reserved 460800) odd_maximal_hint
  = Done tt odd_maximal_hint
         [ClientReserveOutputBuffer (mkSize 0 4) PIXEL_FORMAT_I420;
          LibyuvWrite (I420Copy 1073741824 640 1074049024 320 1074125824 320
                                2147483648 0 2147483648 0 2147483648 0 0 4);
          ClientOnIncomingCapturedBufferExt
            {| frame_size := mkSize 0 4;
               frame_rate := frame_rate_of odd_maximal_hint (frame_at 0 5033000000);
               pixel_format := PIXEL_FORMAT_I420 |}
            (FromZxTime 5033000000)
            (presentation_of odd_maximal_hint (frame_at 0 5033000000))
            (mkRect 0 0 2147483647 3)] /\
  ~ least_even_not_below 2147483647 0 /\
  0 <> 2147483647 + 1.
Proof.
  split; [reflexivity |].
  split; [reflexivity |].
  split; [vm_compute; reflexivity |].
  split; [vm_compute; reflexivity |].
  split; [vm_compute; reflexivity |].
  split; [| lia].
  intros (_ & Hle & _). lia.
Qed.

(** ** The destination check *)

Lemma output_size_of_even vis :
  0 <= width vis < INT_MAX -> 0 <= height vis < INT_MAX ->
  0 <= width (output_size_of vis) /\ 0 <= height (output_size_of vis) /\
  Z.even (width (output_size_of vis)) = true /\
  Z.even (height (output_size_of vis)) = true.
Proof.
  intros Hw Hh. unfold output_size_of, gfx_Size. cbn [width height].
  pose proof (round_to_even_nonneg _ Hw).
  pose proof (round_to_even_nonneg _ Hh).
  pose proof (round_to_even_least _ Hw) as (Ew & _).
  pose proof (round_to_even_least _ Hh) as (Eh & _).
  rewrite !Z.max_r by assumption. auto.
Qed.

(** The converter compares the end of the destination V plane, as its
    address arithmetic computes it, with the end of the destination
    mapping before it does anything else: when the mapping ends earlier
    the call stops in the fatal check, which stores nothing, and a
    conversion routine is called only when the computed end fits.  While
    [width * height] is an [int] and the mapping lies in user memory,
    the computed end is the luma plane plus half as many chroma bytes,
    and every conversion of the per-frame handler writes into a
    destination that holds them. *)
Lemma destination_check_in_range :
  (forall span layout stride ch handle out,
      (handle_end handle < dst_plane_end handle out ->
       CopyAndConvertFrame span layout stride ch handle out = DstCheckFailed /\
       writes_destination
         (CopyAndConvertFrame span layout stride ch handle out) = false) /\
      (writes_destination
         (CopyAndConvertFrame span layout stride ch handle out) = true ->
       dst_plane_end handle out <= handle_end handle))
  /\
  (forall d fi reply reader cw ch stride call,
      buffer_reader_ d = Some reader ->
      coded_layout (image_format_constraints (buffer_settings reader)) cw ch stride ->
      0 <= width (visible_size_of d cw ch) < INT_MAX ->
      0 <= height (visible_size_of d cw ch) < INT_MAX ->
      let out := output_size_of (visible_size_of d cw ch) in
      width out * height out <= INT_MAX ->
      in_user_memory (data (buffer_handle reply))
                     (mapped_size (buffer_handle reply)) ->
      In (LibyuvWrite call) (log_of (ProcessNewFrame fi reply d)) ->
      call_output_size call = out /\
      width out * height out + width out * height out / 2
        <= mapped_size (buffer_handle reply)).
Proof.
  assert (Hconv : forall span layout stride ch handle out,
             writes_destination
               (CopyAndConvertFrame span layout stride ch handle out) = true ->
             dst_plane_end handle out <= handle_end handle).
  { intros span layout stride ch handle out Hwr.
    destruct (Z_lt_le_dec (handle_end handle) (dst_plane_end handle out))
      as [Hlt | Hle]; [| exact Hle].
    apply (CopyAndConvertFrame_dst_check span layout stride ch) in Hlt.
    rewrite Hlt in Hwr. discriminate. }
  split.
  - intros span layout stride ch handle out. split.
    + intros Hlt.
      apply (CopyAndConvertFrame_dst_check span layout stride ch) in Hlt.
      rewrite Hlt. split; reflexivity.
    + apply Hconv.
  - intros d fi reply reader cw ch stride call Hr Hlay Hw Hh out Hfit Hmem Hin.
    destruct (ProcessNewFrame_events d fi reply reader cw ch stride Hr Hlay _ Hin)
      as [He | [(err & He) | [(c & He & Hc) | He]]];
      try discriminate.
    injection He as <-.
    destruct (output_size_of_even _ Hw Hh) as (Nw & Nh & Ew & Eh).
    fold out in Hc, Nw, Nh, Ew, Eh.
    split; [eapply CopyAndConvertFrame_output_size; exact Hc |].
    assert (Hend : dst_plane_end (buffer_handle reply) out
                   <= handle_end (buffer_handle reply)).
    { eapply Hconv. rewrite Hc. reflexivity. }
    unfold handle_end in Hend.
    rewrite (in_user_memory_end _ _ Hmem) in Hend.
    destruct Hmem as (Hd0 & Hs0 & Hd1).
    rewrite (dst_plane_end_even (buffer_handle reply) out Nw Nh Ew Eh Hfit) in Hend
      by lia.
    lia.
Qed.

(** C5.  The design document has the converter abort unless the
    destination holds the luma plane and the two chroma planes; the code
    does not keep this, nor its own comment
    ([Check that the output fits in the buffer]): the size of the luma
    plane is the product [width * height] computed in [int], and it
    wraps around.  For an output size of 65536x65536 the product is 0,
    the three planes are taken to end where the mapping begins, and the
    check passes on a destination of 6 bytes, far below
    [width * height * 3 / 2]: [I420Copy] is called for 65536 rows of
    65536 bytes on that mapping, and the frame is delivered. *)
Theorem destination_check_passes_on_short_buffer :
  output_size_of (visible_size_of huge_hint 640 480) = mkSize 65536 65536 /\
  mapped_size (output_buffer 6)
    < 65536 * 65536 + 65536 * 65536 / 2 /\
  int_mul 65536 65536 = 0 /\
  dst_plane_end (output_buffer 6) (mkSize 65536 65536) = data (output_buffer 6) /\
  CopyAndConvertFrame (GetMappingForBuffer full_reader 0) I420 640 480
                      (output_buffer 6) (mkSize 65536 65536)
  = Converted (I420Copy 1073741824 640 1074049024 320 1074125824 320
                        2147483648 65536 2147483648 32768 2147483648 32768
                        65536 65536) /\
  ProcessNewFrame (frame_at 0 5033000000) (reserved 6) huge_hint
  = Done tt huge_hint
         [ClientReserveOutputBuffer (mkSize 65536 65536) PIXEL_FORMAT_I420;
          LibyuvWrite (I420Copy 1073741824 640 1074049024 320 1074125824 320
                                2147483648 65536 2147483648 32768 2147483648 32768
                                65536 65536);
          delivery_event huge_hint (frame_at 0 5033000000) 640 480].
Proof.
  split; [vm_compute; reflexivity |].
  split; [vm_compute; reflexivity |].
  split; [vm_compute; reflexivity |].
  split; [vm_compute; reflexivity |].
  split; vm_compute; reflexivity.
Qed.

(** ** The delivered visible rectangle *)

(** While the visible width and height are below [INT_MAX], the
    rectangle delivered with a frame is the origin-anchored rectangle of
    the visible size (the resolution hint, or the coded size when no hint
    has arrived), the delivered format carries the even-rounded size, the
    rectangle lies inside that size, and the two differ exactly when the
    visible width or height is odd. *)
Lemma visible_rect_in_range
    d fi reply reader cw ch stride format reference presentation rect :
  buffer_reader_ d = Some reader ->
  coded_layout (image_format_constraints (buffer_settings reader)) cw ch stride ->
  0 <= width (visible_size_of d cw ch) < INT_MAX ->
  0 <= height (visible_size_of d cw ch) < INT_MAX ->
  In (ClientOnIncomingCapturedBufferExt format reference presentation rect)
     (log_of (ProcessNewFrame fi reply d)) ->
  let vis := visible_size_of d cw ch in
  (forall hint, frame_size_ d = Some hint -> vis = hint) /\
  (frame_size_ d = None -> cw <= INT_MAX -> ch <= INT_MAX -> vis = mkSize cw ch) /\
  rect = mkRect 0 0 (width vis) (height vis) /\
  frame_size format =
    mkSize (round_to_even (width vis)) (round_to_even (height vis)) /\
  Z.even (width (frame_size format)) = true /\
  Z.even (height (frame_size format)) = true /\
  rect_x rect + rect_width rect <= width (frame_size format) /\
  rect_y rect + rect_height rect <= height (frame_size format) /\
  (mkSize (rect_width rect) (rect_height rect) <> frame_size format <->
   Z.odd (width vis) = true \/ Z.odd (height vis) = true).
Proof.
  intros Hr Hlay Hw Hh Hin vis.
  destruct (ProcessNewFrame_events d fi reply reader cw ch stride Hr Hlay _ Hin)
    as [He | [(err & He) | [(c & He & Hc) | He]]];
    try discriminate.
  unfold delivery_event in He. injection He as -> _ _ ->.
  fold vis in Hw, Hh |- *.
  pose proof (round_to_even_least _ Hw) as (Ew & Lw & _).
  pose proof (round_to_even_least _ Hh) as (Eh & Lh & _).
  pose proof (round_to_even_nonneg _ Hw) as Nw.
  pose proof (round_to_even_nonneg _ Hh) as Nh.
  pose proof (round_to_even_cases _ Hw) as [Hwe Hwo].
  pose proof (round_to_even_cases _ Hh) as [Hhe Hho].
  assert (Hfs : frame_size (capture_format_of d fi cw ch) =
                mkSize (round_to_even (width vis)) (round_to_even (height vis))).
  { cbn [capture_format_of frame_size]. unfold output_size_of, gfx_Size.
    fold vis. rewrite !Z.max_r by assumption. reflexivity. }
  rewrite Hfs. cbn [gfx_Rect rect_x rect_y rect_width rect_height width height].
  repeat split; try assumption; try lia.
  - intros hint Hhint. unfold vis, visible_size_of. now rewrite Hhint.
  - intros Hnone Hcw Hch. unfold vis, visible_size_of. rewrite Hnone.
    destruct Hlay as (H1 & H2 & _).
    apply RoundUp_range in H1, H2.
    unfold gfx_Size. rewrite !to_int_small by (unfold INT_MAX in *; lia).
    rewrite !Z.max_r by lia. reflexivity.
  - intros Hne.
    destruct (Z.odd (width vis)) eqn:Ow; [now left |].
    destruct (Z.odd (height vis)) eqn:Oh; [now right |].
    exfalso. apply Hne.
    rewrite Hwe, Hhe by (rewrite <- Z.negb_odd; rewrite ?Ow, ?Oh; reflexivity).
    reflexivity.
  - intros [Ow | Oh] Heq; injection Heq as Hwq Hhq.
    + rewrite Hwo in Hwq by (rewrite <- Z.negb_odd, Ow; reflexivity). lia.
    + rewrite Hho in Hhq by (rewrite <- Z.negb_odd, Oh; reflexivity). lia.
Qed.

(** C10.  The design document has the delivered visible rectangle lie
    inside the delivered frame size; the code does not keep this at the
    upper end of [int]: the frame size is rounded with [(w + 1) & ~1]
    in [int], the delivered
    rectangle is not.  With a resolution hint of 2147483647x3 the width
    wraps around and is clamped to 0, and the handler delivers the
    rectangle 2147483647x3 with a format whose frame size is 0x4: the
    rectangle does not lie inside the frame size. *)
Theorem visible_rect_exceeds_frame_size :
  exists format reference presentation rect,
    log_of (ProcessNewFrame (frame_at 0 5033000000) (reserved 460800)
                            odd_maximal_hint)
    = [ClientReserveOutputBuffer (frame_size format) PIXEL_FORMAT_I420;
       LibyuvWrite (I420Copy 1073741824 640 1074049024 320 1074125824 320
                             2147483648 0 2147483648 0 2147483648 0 0 4);
       ClientOnIncomingCapturedBufferExt format reference presentation rect] /\
    rect = gfx_Rect (mkSize 2147483647 3) /\
    rect = mkRect 0 0 2147483647 3 /\
    frame_size format = mkSize 0 4 /\
    width (frame_size format) < rect_x rect + rect_width rect.
Proof.
  exists (capture_format_of odd_maximal_hint (frame_at 0 5033000000) 640 480),
         (FromZxTime 5033000000),
         (presentation_of odd_maximal_hint (frame_at 0 5033000000)),
         (mkRect 0 0 2147483647 3).
  split; [vm_compute; reflexivity |].
  split; [reflexivity |].
  split; [reflexivity |].
  split; [vm_compute; reflexivity |].
  vm_compute. reflexivity.
Qed.

(** ** Backpressure *)

(** C8.  When the client refuses the output buffer of frame K, the
    per-frame handler returns with the device unchanged after the
    reservation alone: no error is reported and nothing is delivered or
    converted.  The callback then asks for the next frame, and the frames
    that follow are handled exactly as they would be from the state
    before frame K. *)
Theorem backpressure_drops_frame d fi reply reader cw ch stride :
  client_ d = true -> stream_ d = true ->
  buffer_reader_ d = Some reader ->
  to_size_t (buffer_index fi) < num_buffers reader ->
  coded_layout (image_format_constraints (buffer_settings reader)) cw ch stride ->
  reserve_result reply <> kSucceeded ->
  ProcessNewFrame fi reply d = Done tt d [reserve_event d cw ch] /\
  existsb is_error (log_of (ProcessNewFrame fi reply d)) = false /\
  existsb is_delivery (log_of (ProcessNewFrame fi reply d)) = false /\
  existsb is_write (log_of (ProcessNewFrame fi reply d)) = false /\
  dispatch (NextFrameResult fi reply) d =
    Done tt d [reserve_event d cw ch; ToStream true GetNextFrameRequest] /\
  (forall rest,
      run (NextFrameResult fi reply :: rest) d =
      prepend_log [reserve_event d cw ch; ToStream true GetNextFrameRequest]
                  (run rest d)).
Proof.
  intros Hc Hs Hr Hi Hlay Hres.
  assert (Hp : ProcessNewFrame fi reply d = Done tt d [reserve_event d cw ch]).
  { pose proof (ProcessNewFrame_outcome d fi reply) as Ho.
    inversion Ho as
      [ Hc' | Hc' Hr' | r Hc' Hr' Hi' | r Hc' Hr' Hi' Hno
      | r cw' ch' s' Hc' Hr' Hi' Hlay' Hres'
      | r cw' ch' s' Hc' Hr' Hi' Hlay' Hres' H0'
      | r cw' ch' s' Hc' Hr' Hi' Hlay' Hres' H0' Hlt'
      | r cw' ch' s' fk Hc' Hr' Hi' Hlay' Hres' Hge' Hw'
      | r cw' ch' s' call Hc' Hr' Hi' Hlay' Hres' H0' Hge' Hconv' ];
      try congruence;
      try (rewrite Hr in Hr'; injection Hr' as <-).
    - lia.
    - exfalso. now apply (Hno cw ch stride).
    - destruct (coded_layout_functional _ _ _ _ _ _ _ Hlay Hlay') as (<- & <- & <-).
      reflexivity. }
  assert (Hd : dispatch (NextFrameResult fi reply) d =
               Done tt d [reserve_event d cw ch; ToStream true GetNextFrameRequest]).
  { unfold dispatch, while_alive, bind, this. rewrite Hs.
    unfold OnGetNextFrameResult, bind. rewrite Hp, ReceiveNextFrame_eq, Hs.
    reflexivity. }
  rewrite Hp. repeat split; try reflexivity; try assumption.
  intros rest. cbn [run]. unfold bind at 1. rewrite Hd.
  destruct (run rest d); reflexivity.
Qed.

Lemma backpressure_drops_frame_witness :
  ProcessNewFrame (frame_at 0 5033000000) refused (streaming full_reader) =
  Done tt (streaming full_reader) [reserve_event (streaming full_reader) 640 480].
Proof.
  destruct (backpressure_drops_frame
              (streaming full_reader) (frame_at 0 5033000000) refused
              full_reader 640 480 640)
    as (Hdrop & _).
  - reflexivity.
  - reflexivity.
  - reflexivity.
  - vm_compute. reflexivity.
  - repeat split; reflexivity.
  - discriminate.
  - exact Hdrop.
Defined.

(** ** Stopping *)

(** C9.  [StopAndDeAllocate] never faults and performs no outside
    operation; it leaves the stream unbound and the pool creator, pool,
    reader and resolution hint empty, whatever the state it is called in;
    a second call changes nothing; and after the teardown of a fatal
    error it ends in the state it would have reached directly. *)
Theorem stop_is_idempotent (d : Device) :
  exists stopped,
    StopAndDeAllocate d = Done tt stopped [] /\
    StopAndDeAllocate stopped = Done tt stopped [] /\
    stream_ stopped = false /\
    buffer_collection_creator_ stopped = false /\
    buffer_collection_ stopped = None /\
    buffer_reader_ stopped = None /\
    frame_size_ stopped = None /\
    client_ stopped = false /\
    (forall error,
        (OnError error ;; StopAndDeAllocate) d =
        Done tt stopped (if client_ d then [ClientOnError error] else [])).
Proof.
  exists (set_client_ false (torn_down d)).
  repeat split.
  intros error. unfold bind. rewrite OnError_eq.
  destruct (client_ d); reflexivity.
Qed.

(** ** The frame pull loop *)

Lemma ProcessNewFrame_no_request d fi reply :
  existsb is_next_frame_request (log_of (ProcessNewFrame fi reply d)) = false.
Proof.
  destruct (ProcessNewFrame_outcome d fi reply); reflexivity.
Qed.

Lemma occurs_before_last p q l e :
  existsb p l = false -> occurs_before p q (l ++ [e]) = false.
Proof.
  induction l as [| a l IH]; cbn; intros H.
  - now rewrite andb_false_r.
  - apply orb_false_iff in H. destruct H as [Ha Hl].
    rewrite Ha. cbn. now apply IH.
Qed.

Lemma occurs_before_none p q l :
  existsb p l = false -> occurs_before p q l = false.
Proof.
  induction l as [| a l IH]; cbn; intros H; [reflexivity |].
  apply orb_false_iff in H. destruct H as [Ha Hl].
  rewrite Ha. cbn. now apply IH.
Qed.

Lemma OnGetNextFrameResult_eq fi reply d :
  OnGetNextFrameResult fi reply d =
  match ProcessNewFrame fi reply d with
  | Done _ d' l => Done tt d' (l ++ [ToStream (stream_ d') GetNextFrameRequest])
  | Fault f l => Fault f l
  end.
Proof.
  unfold OnGetNextFrameResult, bind.
  destruct (ProcessNewFrame fi reply d) as [[] d' l | f l]; reflexivity.
Qed.

Lemma dispatch_NextFrameResult fi reply d :
  dispatch (NextFrameResult fi reply) d =
  if stream_ d then OnGetNextFrameResult fi reply d else Done tt d [].
Proof.
  unfold dispatch, while_alive, bind, this.
  destruct (stream_ d); cbn; [| reflexivity].
  destruct (OnGetNextFrameResult fi reply d) as [[] d' l | f l]; reflexivity.
Qed.

(** C2 (as the code has it).  The callback of [GetNextFrame] first runs
    the per-frame handler to its end and only then issues the next
    request: the request is the last operation of the callback, the
    handler itself issues none, and so no operation of the current
    frame's processing comes after the request. *)
Theorem next_request_follows_processing fi reply d :
  OnGetNextFrameResult fi reply d =
    match ProcessNewFrame fi reply d with
    | Done _ d' l => Done tt d' (l ++ [ToStream (stream_ d') GetNextFrameRequest])
    | Fault f l => Fault f l
    end /\
  existsb is_next_frame_request (log_of (ProcessNewFrame fi reply d)) = false /\
  occurs_before is_next_frame_request is_processing
                (log_of (OnGetNextFrameResult fi reply d)) = false.
Proof.
  pose proof (ProcessNewFrame_no_request d fi reply) as Hno.
  pose proof (OnGetNextFrameResult_eq fi reply d) as Heq.
  split; [exact Heq |]. split; [exact Hno |].
  rewrite Heq. destruct (ProcessNewFrame fi reply d) as [[] d' l | f l]; cbn in *.
  - now apply occurs_before_last.
  - now apply occurs_before_none.
Qed.

(** The pipelining the design document describes would put the request
    before the end of the frame's processing; on a delivered frame the
    request comes after the delivery. *)
Lemma next_request_is_not_pipelined :
  log_of (OnGetNextFrameResult (frame_at 0 5033000000) (reserved 460800)
                               (streaming full_reader)) =
  [ reserve_event (streaming full_reader) 640 480;
    LibyuvWrite (I420Copy 1073741824 640 1074049024 320 1074125824 320
                          2147483648 640 2147790848 320 2147867648 320 640 480);
    delivery_event (streaming full_reader) (frame_at 0 5033000000) 640 480;
    ToStream true GetNextFrameRequest ] /\
  occurs_before is_next_frame_request is_processing
    (log_of (OnGetNextFrameResult (frame_at 0 5033000000) (reserved 460800)
                                  (streaming full_reader))) = false.
Proof. split; vm_compute; reflexivity. Qed.

(** ** Runs: what every input preserves *)

Ltac run_handler :=
  unfold dispatch, while_alive, AllocateAndStart, StopAndDeAllocate,
    OnDeviceError, OnStreamError, OnWatchResolutionResult,
    OnWatchBufferCollectionResult, InitializeBufferCollection,
    WatchBufferCollection, WatchResolution, OnBufferCollectionCreated,
    OnBufferReaderCreated, ReceiveNextFrame, OnError, DisconnectStream,
    call_stream, DCHECK, bind, this, update, emit, fault, ret;
  cbn;
  repeat (match goal with
          | |- context [if ?b then _ else _] => destruct b eqn:?
          | |- context [match ?o with Some _ => _ | None => _ end] =>
              destruct o eqn:?
          end; cbn).

Lemma count_app p l1 l2 : count p (l1 ++ l2) = (count p l1 + count p l2)%nat.
Proof. unfold count. now rewrite filter_app, length_app. Qed.

Lemma delivered_rates_app l1 l2 :
  delivered_rates (l1 ++ l2) = delivered_rates l1 ++ delivered_rates l2.
Proof. unfold delivered_rates. apply flat_map_app. Qed.

Lemma frame_rate_of_uncounted d fi :
  frames_received_ d = 0 -> (frame_rate_of d fi == 0)%Q.
Proof.
  intros H. unfold frame_rate_of. rewrite H.
  destruct (0 <? presentation_of d fi); [| reflexivity].
  unfold Qdiv. apply Qmult_0_l.
Qed.

(** The per-frame handler leaves the counter and the started flag alone. *)
Lemma ProcessNewFrame_keeps d fi reply d' l :
  ProcessNewFrame fi reply d = Done tt d' l ->
  frames_received_ d' = frames_received_ d /\
  started_ d' = started_ d /\
  count is_started l = 0%nat.
Proof.
  intros H. pose proof (ProcessNewFrame_outcome d fi reply) as Ho.
  rewrite H in Ho.
  inversion Ho; subst; repeat split; reflexivity.
Qed.

Lemma ProcessNewFrame_no_started d fi reply :
  count is_started (log_of (ProcessNewFrame fi reply d)) = 0%nat.
Proof. destruct (ProcessNewFrame_outcome d fi reply); reflexivity. Qed.

Lemma ProcessNewFrame_rates d fi reply :
  frames_received_ d = 0 ->
  Forall (fun r => (r == 0)%Q) (delivered_rates (log_of (ProcessNewFrame fi reply d))).
Proof.
  intros Hz.
  destruct (ProcessNewFrame_outcome d fi reply); cbn; try constructor.
  - now apply frame_rate_of_uncounted.
  - constructor.
Qed.

(** No input makes the counter of received frames leave zero, so every
    delivered frame rate is zero. *)
Lemma dispatch_frames_received i d :
  frames_received_ d = 0 ->
  Forall (fun r => (r == 0)%Q) (delivered_rates (log_of (dispatch i d))) /\
  (forall d' l, dispatch i d = Done tt d' l -> frames_received_ d' = 0).
Proof.
  intros Hz. destruct i.
  1-8: split; [ run_handler; constructor
              | run_handler; intros d' l H; inversion H; subst; cbn; auto ].
  rewrite dispatch_NextFrameResult.
  destruct (stream_ d);
    [| split; [constructor | intros ? ? H; inversion H; now subst]].
  rewrite OnGetNextFrameResult_eq.
  pose proof (ProcessNewFrame_rates d frame_info reply Hz) as Hrates.
  destruct (ProcessNewFrame frame_info reply d) as [[] d1 l1 | f l1] eqn:Hp.
  - apply ProcessNewFrame_keeps in Hp. destruct Hp as (Hf & _ & _).
    cbn in *. split.
    + rewrite delivered_rates_app, app_nil_r. exact Hrates.
    + intros d' l H. inversion H; subst. lia.
  - cbn in *. split; [exact Hrates | discriminate].
Qed.

Lemma run_frames_received inputs :
  forall d,
    frames_received_ d = 0 ->
    Forall (fun r => (r == 0)%Q) (delivered_rates (log_of (run inputs d))) /\
    (forall d' l, run inputs d = Done tt d' l -> frames_received_ d' = 0).
Proof.
  induction inputs as [| i rest IH]; intros d Hz.
  - split; [constructor | intros d' l H; inversion H; now subst].
  - cbn [run]. unfold bind.
    destruct (dispatch_frames_received i d Hz) as [Hr Hd].
    destruct (dispatch i d) as [[] d1 l1 | f l1] eqn:Hi; cbn in Hr.
    + specialize (IH d1 (Hd d1 l1 eq_refl)). destruct IH as [IHr IHd].
      destruct (run rest d1) as [[] d2 l2 | f l2] eqn:Hrest; cbn in *.
      * split.
        -- rewrite delivered_rates_app. apply Forall_app. now split.
        -- intros d' l H. inversion H; subst. now apply (IHd d' l2).
      * split; [| discriminate].
        rewrite delivered_rates_app. apply Forall_app. now split.
    + split; [exact Hr | discriminate].
Qed.

(** C3 (what the code does).  In the end-to-end run the counter of
    received frames is still zero after the third frame and each of the
    three delivered formats carries a frame rate of zero: the counter is
    reset by the start and never incremented. *)
Theorem frame_rate_after_three_frames :
  option_map frames_received_ (device_of (run end_to_end constructed)) = Some 0 /\
  length (delivered_rates (log_of (run end_to_end constructed))) = 3%nat /\
  Forall (fun r => (r == 0)%Q)
         (delivered_rates (log_of (run end_to_end constructed))) /\
  ~ (45 <= nth 2 (delivered_rates (log_of (run end_to_end constructed))) 0 <= 46)%Q.
Proof.
  split; [vm_compute; reflexivity |].
  split; [vm_compute; reflexivity |].
  split.
  - apply (run_frames_received end_to_end constructed). reflexivity.
  - vm_compute. intros [H _]. apply H. reflexivity.
Qed.

(** Whatever reaches the device after its construction, every frame it
    delivers carries a frame rate of zero. *)
Theorem delivered_frame_rate_is_zero (inputs : list Input) :
  Forall (fun r => (r == 0)%Q)
         (delivered_rates (log_of (run inputs constructed))).
Proof. apply (run_frames_received inputs constructed). reflexivity. Qed.

(** The start resets the counter when the camera is connected. *)
Lemma AllocateAndStart_resets_counter requested now d d' l :
  device_ d = true ->
  AllocateAndStart requested now d = Done tt d' l ->
  frames_received_ d' = 0 /\ start_time_ d' = now.
Proof.
  intros Hdev. run_handler; intros H; try discriminate;
    inversion H; subst; cbn; auto;
    rewrite Hdev in *; discriminate.
Qed.

(** ** The started signal *)

Lemma dispatch_started i d :
  (started_ d = true -> count is_started (log_of (dispatch i d)) = 0%nat) /\
  (count is_started (log_of (dispatch i d)) <= 1)%nat /\
  (forall d' l,
      dispatch i d = Done tt d' l ->
      (started_ d = true -> started_ d' = true) /\
      (count is_started l = 1%nat -> started_ d' = true)).
Proof.
  destruct i.
  1-8: split; [| split];
       [ intros Hs; run_handler; auto; rewrite Hs in *; discriminate
       | run_handler; lia
       | intros d' l; run_handler; intros H; try discriminate;
         inversion H; subst; cbn; split; intros Hs; auto;
         try discriminate; try (rewrite Hs in *; discriminate) ].
  rewrite dispatch_NextFrameResult.
  destruct (stream_ d).
  2: { split; [| split]; cbn; auto.
       intros d' l H. inversion H; subst. cbn. split; auto; discriminate. }
  rewrite OnGetNextFrameResult_eq.
  pose proof (ProcessNewFrame_no_started d frame_info reply) as Hno.
  destruct (ProcessNewFrame frame_info reply d) as [[] d1 l1 | f l1] eqn:Hp;
    cbn [log_of] in Hno |- *.
  - apply ProcessNewFrame_keeps in Hp. destruct Hp as (_ & Hst & _).
    rewrite count_app, Hno. cbn.
    split; [auto | split; [auto |]].
    intros d' l H. inversion H; subst. split.
    + congruence.
    + rewrite count_app, Hno. cbn. discriminate.
  - rewrite Hno. split; [auto | split; [auto | discriminate]].
Qed.

Lemma run_started inputs :
  forall d,
    (started_ d = true -> count is_started (log_of (run inputs d)) = 0%nat) /\
    (count is_started (log_of (run inputs d)) <= 1)%nat.
Proof.
  induction inputs as [| i rest IH]; intros d.
  - cbn. auto.
  - cbn [run]. unfold bind.
    destruct (dispatch_started i d) as (Hzero & Hone & Hnext).
    destruct (dispatch i d) as [[] d1 l1 | f l1] eqn:Hi;
      cbn [log_of] in Hzero, Hone.
    + destruct (Hnext d1 l1 eq_refl) as [Hkeep Hset].
      destruct (IH d1) as [IHzero IHone].
      assert (Hlog : log_of (match run rest d1 with
                             | Done b d2 l2 => Done b d2 (l1 ++ l2)
                             | Fault f l2 => Fault f (l1 ++ l2)
                             end) = l1 ++ log_of (run rest d1))
        by (destruct (run rest d1); reflexivity).
      rewrite Hlog, count_app. split.
      * intros Hs. rewrite (Hzero Hs), (IHzero (Hkeep Hs)). reflexivity.
      * destruct (count is_started l1) as [| [| n]] eqn:Hc.
        -- cbn. exact IHone.
        -- rewrite (IHzero (Hset eq_refl)). cbn. lia.
        -- lia.
    + cbn [log_of]. auto.
Qed.

(** What the started flag does: the first successful negotiation on a
    device object that has not started yet signals [OnStarted] to the
    client and issues the first frame request; once the flag is set a
    negotiation round signals nothing and requests nothing; no input
    clears the flag, [StopAndDeAllocate] included; so whatever reaches
    the object, over any number of start/stop cycles, [OnStarted] is
    signalled at most once. *)
Lemma started_signal_at_most_once :
  (forall d reader,
      started_ d = false -> client_ d = true ->
      has_image_format_constraints (buffer_settings reader) = true ->
      IsSupportedPixelFormat
        (pixel_format_type (image_format_constraints (buffer_settings reader))) = true ->
      OnBufferReaderCreated reader d =
      Done tt (set_started_ true (set_buffer_reader_ (Some reader) d))
           [ClientOnStarted; ToStream (stream_ d) GetNextFrameRequest]) /\
  (forall d reader,
      started_ d = true ->
      count is_started (log_of (OnBufferReaderCreated reader d)) = 0%nat /\
      count is_next_frame_request (log_of (OnBufferReaderCreated reader d)) = 0%nat) /\
  (forall d d' l,
      started_ d = true -> StopAndDeAllocate d = Done tt d' l ->
      started_ d' = true) /\
  (forall inputs,
      (count is_started (log_of (run inputs constructed)) <= 1)%nat).
Proof.
  repeat apply conj.
  - intros d reader Hs Hc Hfmt Hsup.
    unfold OnBufferReaderCreated, bind, update, this. cbn.
    rewrite Hfmt, Hsup. cbn. rewrite Hs, Hc. reflexivity.
  - intros d reader Hs.
    split; run_handler; auto; rewrite Hs in *; discriminate.
  - intros d d' l Hs H. rewrite StopAndDeAllocate_eq in H.
    inversion H; subst. exact Hs.
  - intros inputs. apply (run_started inputs constructed).
Qed.

Lemma started_signal_on_first_negotiation :
  OnBufferReaderCreated full_reader
    (set_started_ false (set_buffer_reader_ None (streaming full_reader))) =
  Done tt (streaming full_reader) [ClientOnStarted; ToStream true GetNextFrameRequest].
Proof.
  apply (proj1 started_signal_at_most_once
               (set_started_ false (set_buffer_reader_ None (streaming full_reader)))
               full_reader);
    reflexivity.
Defined.

(** C4.  The design document has every stream lifetime signal
    [OnStarted] once; the code does not do so for a second lifetime.
    [AllocateAndStart] is written to be called again after
    [StopAndDeAllocate] (it rebinds the stream and resets the start time
    and the frame counter), but the started flag set by the first
    negotiation is cleared nowhere.  After a start, a successful
    negotiation (which signals [OnStarted] once) and a stop, a new start
    and a new successful negotiation install the reader on the new
    stream, yet [OnStarted] is not signalled and no frame is requested:
    the second stream never starts its pull loop. *)
Theorem restart_does_not_signal_started :
  exists d1 l1 d2 l2,
    run (negotiation 5000000 1 full_reader ++ [CallStopAndDeAllocate]) constructed
      = Done tt d1 l1 /\
    count is_started l1 = 1%nat /\
    run (negotiation 9000000 2 full_reader) d1 = Done tt d2 l2 /\
    buffer_reader_ d2 = Some full_reader /\
    stream_ d2 = true /\
    count is_started l2 = 0%nat /\
    count is_next_frame_request l2 = 0%nat.
Proof.
  do 4 eexists.
  split; [vm_compute; reflexivity |].
  split; [reflexivity |].
  split; [vm_compute; reflexivity |].
  repeat split; reflexivity.
Qed.

(** * Further properties of the device code *)

(** ** RoundUp *)

Lemma RoundUp_exact value alignment :
  0 < alignment -> 0 <= value -> value + alignment <= SIZE_MODULUS ->
  RoundUp value alignment = Some ((value + alignment - 1) / alignment * alignment).
Proof.
  intros Ha Hv Hfit. unfold RoundUp.
  destruct (Z.eqb_spec alignment 0) as [-> | _]; [lia |].
  f_equal. unfold size_sub, size_add, to_size_t.
  rewrite Zminus_mod_idemp_l.
  rewrite (Z.mod_small (value + alignment - 1)) by lia.
  apply size_mul_small.
  assert (0 <= (value + alignment - 1) / alignment) by (apply Z.div_pos; lia).
  assert ((value + alignment - 1) / alignment * alignment <= value + alignment - 1).
  { rewrite Z.mul_comm. apply Z.mul_div_le. lia. }
  split; [apply Z.mul_nonneg_nonneg; lia | lia].
Qed.

(** X1.  For a positive alignment and a value whose sum with the
    alignment [size_t] holds, [RoundUp] returns the least multiple of the
    alignment that is not below the value; a value that is already a
    multiple is returned unchanged. *)
Theorem RoundUp_least_multiple value alignment :
  0 < alignment -> 0 <= value -> value + alignment <= SIZE_MODULUS ->
  exists r,
    RoundUp value alignment = Some r /\
    r mod alignment = 0 /\
    value <= r < value + alignment /\
    (forall m, m mod alignment = 0 -> value <= m -> r <= m) /\
    (value mod alignment = 0 -> r = value).
Proof.
  intros Ha Hv Hfit.
  exists ((value + alignment - 1) / alignment * alignment).
  split; [now apply RoundUp_exact |].
  pose proof (Z.div_mod (value + alignment - 1) alignment ltac:(lia)) as Hdm.
  pose proof (Z.mod_pos_bound (value + alignment - 1) alignment Ha) as Hm.
  set (q := (value + alignment - 1) / alignment) in *.
  set (m0 := (value + alignment - 1) mod alignment) in *.
  split; [apply Z.mod_mul; lia |].
  split; [lia |].
  split.
  - intros m Hmul Hle.
    apply Z.mod_divide in Hmul; [| lia]. destruct Hmul as [k ->].
    assert (q <= k); [| nia].
    destruct (Z_le_gt_dec q k); [assumption | exfalso; nia].
  - intros Hmul.
    apply Z.mod_divide in Hmul; [| lia]. destruct Hmul as [k Hk].
    assert (Hq : q = k); [| rewrite Hq; lia].
    assert (k <= q) by nia. assert (q <= k) by nia. lia.
Qed.


Lemma RoundUp_least_multiple_witness :
  exists r, RoundUp 641 16 = Some r /\ 641 <= r < 641 + 16.
Proof.
  destruct (RoundUp_least_multiple 641 16) as (r & Hr & _ & Hb & _).
  - lia.
  - lia.
  - unfold SIZE_MODULUS. lia.
  - exists r. split; assumption.
Defined.

(** X2.  On the values the negotiated constraints can hold (32-bit
    unsigned), [RoundUp] is monotone in the value and rounding a rounded
    value again changes nothing. *)
Theorem RoundUp_monotone_idempotent value value' alignment r r' :
  0 < alignment < 2 ^ 32 ->
  0 <= value <= value' -> value' < 2 ^ 32 ->
  RoundUp value alignment = Some r ->
  RoundUp value' alignment = Some r' ->
  r <= r' /\ RoundUp r alignment = Some r.
Proof.
  intros Ha Hv Hv' Hr Hr'.
  rewrite RoundUp_exact in Hr, Hr' by (unfold SIZE_MODULUS; lia).
  injection Hr as <-. injection Hr' as <-.
  split.
  - apply Z.mul_le_mono_nonneg_r; [lia |].
    apply Z.div_le_mono; lia.
  - destruct (RoundUp_least_multiple value alignment)
      as (r & Hr & Hmul & Hb & _ & _); try (unfold SIZE_MODULUS; lia).
    rewrite RoundUp_exact in Hr by (unfold SIZE_MODULUS; lia).
    injection Hr as Hr. rewrite Hr.
    destruct (RoundUp_least_multiple r alignment)
      as (r2 & Hr2 & _ & _ & _ & Hfix); try (unfold SIZE_MODULUS; lia).
    rewrite Hr2. f_equal. now apply Hfix.
Qed.

Lemma RoundUp_monotone_idempotent_witness :
  640 <= 656 /\ RoundUp 640 16 = Some 640.
Proof.
  apply (RoundUp_monotone_idempotent 639 641 16 640 656);
    try lia; reflexivity.
Defined.

(** X3.  From constraints whose fields are 32-bit unsigned values and
    whose divisors are not zero, the per-frame handler derives a coded
    size and a row stride without fault: each coded dimension is a
    multiple of its divisor and covers both the minimum and the required
    maximum, and the stride is a multiple of the row divisor that covers
    the coded width and the minimum bytes per row. *)
Theorem coded_layout_covers_constraints (f : ImageFormatConstraints) :
  0 <= min_coded_width f < 2 ^ 32 ->
  0 <= required_max_coded_width f < 2 ^ 32 ->
  0 < coded_width_divisor f < 2 ^ 32 ->
  0 <= min_coded_height f < 2 ^ 32 ->
  0 <= required_max_coded_height f < 2 ^ 32 ->
  0 < coded_height_divisor f < 2 ^ 32 ->
  0 <= min_bytes_per_row f < 2 ^ 32 ->
  0 < bytes_per_row_divisor f < 2 ^ 32 ->
  exists cw ch stride,
    coded_layout f cw ch stride /\
    min_coded_width f <= cw /\ required_max_coded_width f <= cw /\
    cw mod coded_width_divisor f = 0 /\
    min_coded_height f <= ch /\ required_max_coded_height f <= ch /\
    ch mod coded_height_divisor f = 0 /\
    cw <= stride /\ min_bytes_per_row f <= stride /\
    stride mod bytes_per_row_divisor f = 0 /\
    stride < 2 ^ 34.
Proof.
  intros Hmw Hrw Hdw Hmh Hrh Hdh Hmb Hdb.
  destruct (RoundUp_least_multiple
              (Z.max (min_coded_width f) (required_max_coded_width f))
              (coded_width_divisor f))
    as (cw & Hcw & Mw & Bw & _); try (unfold SIZE_MODULUS; lia).
  destruct (RoundUp_least_multiple
              (Z.max (min_coded_height f) (required_max_coded_height f))
              (coded_height_divisor f))
    as (ch & Hch & Mh & Bh & _); try (unfold SIZE_MODULUS; lia).
  assert (Hsmall : to_size_t (min_bytes_per_row f) = min_bytes_per_row f)
    by (apply to_size_t_small; unfold SIZE_MODULUS; lia).
  destruct (RoundUp_least_multiple
              (Z.max (to_size_t (min_bytes_per_row f)) cw)
              (bytes_per_row_divisor f))
    as (stride & Hst & Ms & Bs & _); try (rewrite ?Hsmall; unfold SIZE_MODULUS; lia).
  rewrite Hsmall in Bs.
  exists cw, ch, stride.
  repeat split; try assumption; lia.
Qed.

Lemma coded_layout_covers_constraints_witness :
  exists cw ch stride,
    coded_layout (constraints_640x480 NV12) cw ch stride /\ cw <= stride.
Proof.
  destruct (coded_layout_covers_constraints (constraints_640x480 NV12))
    as (cw & ch & stride & Hlay & _ & _ & _ & _ & _ & _ & Hle & _);
    try (cbn; lia).
  exists cw, ch, stride. split; assumption.
Defined.

(** ** The converter: layouts and destination planes *)

(** X4.  The formats [IsSupportedPixelFormat] accepts are exactly those
    [GetConvertedPixelFormat] maps to I420 and exactly those the
    converter has a case for: it reaches [NOTREACHED] only on a rejected
    format, and on a rejected format it reaches it as soon as the
    destination check passes. *)
Theorem supported_formats_are_converted
    (span : Span) (layout : PixelFormatType) (stride ch : Z)
    (handle : BufferHandle) (out : Size) :
  (IsSupportedPixelFormat layout = true <->
   GetConvertedPixelFormat layout = PIXEL_FORMAT_I420) /\
  (CopyAndConvertFrame span layout stride ch handle out = NotReached <->
   IsSupportedPixelFormat layout = false /\
   dst_plane_end handle out <= handle_end handle).
Proof.
  split.
  - destruct layout; cbn; split; intros H; try reflexivity; discriminate.
  - pose proof (CopyAndConvertFrame_dst_check span layout stride ch handle out)
      as Hdst.
    split.
    + intros H. split.
      * destruct layout; try reflexivity; exfalso;
          unfold CopyAndConvertFrame in H; cbv zeta in H;
          repeat match type of H with
                 | context [if ?b then _ else _] => destruct b
                 end; discriminate.
      * destruct (Z_lt_le_dec (handle_end handle) (dst_plane_end handle out))
          as [Hlt | Hle]; [| exact Hle].
        apply Hdst in Hlt. congruence.
    + intros [Hsup Hle].
      destruct layout; try discriminate.
      assert (Hne : CopyAndConvertFrame span (OtherPixelFormat raw) stride ch
                                        handle out <> DstCheckFailed)
        by (intros Habs; apply Hdst in Habs; lia).
      unfold CopyAndConvertFrame in *. cbv zeta in *.
      destruct (negb _); [contradiction | reflexivity].
Qed.

(** X5.  When the converter calls a conversion routine for an even,
    non-negative output size whose area fits an [int], the three
    destination planes it hands over start at the mapping and follow
    each other in address arithmetic (luma [w * h] bytes with stride
    [w], then U and V of [(w / 2) * (h / 2)] bytes with stride [w / 2]),
    and the address after the V plane is not above the address after the
    mapping.  For a mapping in user memory no address wraps around: the
    planes follow each other without overlap and end inside the mapped
    destination. *)
Theorem destination_planes_are_disjoint
    (span : Span) (layout : PixelFormatType) (stride ch : Z)
    (handle : BufferHandle) (out : Size) (call : LibyuvCall) :
  0 <= width out -> 0 <= height out ->
  Z.even (width out) = true -> Z.even (height out) = true ->
  width out * height out <= INT_MAX ->
  CopyAndConvertFrame span layout stride ch handle out = Converted call ->
  call_dst_y call = data handle /\
  call_dst_stride_y call = width out /\
  call_dst_stride_u call = width out / 2 /\
  call_dst_stride_v call = width out / 2 /\
  ptr_add (call_dst_y call) (width out * height out) = call_dst_u call /\
  ptr_add (call_dst_u call) ((width out / 2) * (height out / 2))
    = call_dst_v call /\
  ptr_add (call_dst_v call) ((width out / 2) * (height out / 2))
    <= handle_end handle /\
  (in_user_memory (data handle) (mapped_size handle) ->
   call_dst_y call + width out * height out = call_dst_u call /\
   call_dst_u call + (width out / 2) * (height out / 2) = call_dst_v call /\
   call_dst_v call + (width out / 2) * (height out / 2)
     <= data handle + mapped_size handle).
Proof.
  intros Hw Hh Ew Eh Hfit Hconv.
  assert (Hwr : writes_destination
                  (CopyAndConvertFrame span layout stride ch handle out) = true)
    by (rewrite Hconv; reflexivity).
  assert (Hend : dst_plane_end handle out <= handle_end handle).
  { destruct (Z_lt_le_dec (handle_end handle) (dst_plane_end handle out))
      as [Hlt | Hle]; [| exact Hle].
    apply (CopyAndConvertFrame_dst_check span layout stride ch) in Hlt.
    rewrite Hlt in Hwr. discriminate. }
  assert (Hpos : 0 <= width out * height out)
    by (apply Z.mul_nonneg_nonneg; lia).
  assert (Hplane : to_size_t (int_mul (width out) (height out))
                   = width out * height out).
  { unfold int_mul. rewrite to_int_small by (unfold INT_MAX in *; lia).
    apply to_size_t_small. unfold INT_MAX, SIZE_MODULUS in *. lia. }
  assert (Hquarter : width out * height out / 4
                     = (width out / 2) * (height out / 2)).
  { apply Z.even_spec in Ew, Eh. destruct Ew as [a Ha], Eh as [b Hb].
    rewrite Ha, Hb.
    replace (2 * a * (2 * b)) with (a * b * 4) by ring.
    rewrite Z.div_mul by lia.
    rewrite !(Z.mul_comm 2), !Z.div_mul by lia. reflexivity. }
  assert (Hq4 : 0 <= width out * height out / 4 <= width out * height out).
  { split; [apply Z.div_pos; lia | apply Z.div_le_upper_bound; lia]. }
  unfold dst_plane_end in Hend. cbv zeta in Hend.
  rewrite Hplane, Hquarter in Hend.
  assert (Hq : int_div (width out) 2 = width out / 2).
  { unfold int_div. apply Z.quot_div_nonneg; lia. }
  assert (Hplain :
            in_user_memory (data handle) (mapped_size handle) ->
            ptr_add (data handle) (width out * height out)
            = data handle + width out * height out /\
            ptr_add (ptr_add (data handle) (width out * height out))
                    (width out / 2 * (height out / 2))
            = data handle + width out * height out
              + width out / 2 * (height out / 2) /\
            data handle + width out * height out
            + width out / 2 * (height out / 2)
            + width out / 2 * (height out / 2)
            <= data handle + mapped_size handle).
  { intros Hmem.
    pose proof (in_user_memory_end _ _ Hmem) as Hhe.
    destruct Hmem as (Hd0 & Hs0 & Hd1).
    unfold handle_end in Hend. rewrite Hhe in Hend.
    rewrite <- Hquarter in *.
    rewrite (ptr_add_small (data handle) (width out * height out)) in *
      by (unfold INT_MAX, SIZE_MODULUS in *; lia).
    rewrite (ptr_add_small (data handle + width out * height out)) in *
      by (unfold INT_MAX, SIZE_MODULUS in *; lia).
    rewrite ptr_add_small in Hend by (unfold INT_MAX, SIZE_MODULUS in *; lia).
    repeat split; lia. }
  unfold CopyAndConvertFrame in Hconv. cbv zeta in Hconv.
  rewrite Hplane, Hquarter, Hq in Hconv.
  destruct layout;
    repeat match type of Hconv with
           | context [if ?b then _ else _] => destruct b
           end; try discriminate;
    injection Hconv as <-;
    cbn [call_dst_y call_dst_u call_dst_v call_dst_stride_y
         call_dst_stride_u call_dst_stride_v];
    (split; [reflexivity |]); (split; [reflexivity |]);
    (split; [reflexivity |]); (split; [reflexivity |]);
    (split; [reflexivity |]); (split; [reflexivity |]);
    (split; [exact Hend |]);
    intros Hmem; destruct (Hplain Hmem) as (H1 & H2 & H3);
    rewrite ?H2, ?H1; repeat split; lia.
Qed.

Lemma destination_planes_are_disjoint_witness :
  2147790848 + (640 / 2) * (480 / 2) = 2147867648 /\
  2147867648 + (640 / 2) * (480 / 2) <= 2147483648 + 460800.
Proof.
  destruct (destination_planes_are_disjoint
              {| span_data := 1073741824; span_size := 460800 |}
              I420 640 480 (output_buffer 460800) (mkSize 640 480)
              (I420Copy 1073741824 640 1074049024 320 1074125824 320
                        2147483648 640 2147790848 320 2147867648 320 640 480))
    as (_ & _ & _ & _ & _ & _ & _ & Hplain).
  - cbn. lia.
  - cbn. lia.
  - reflexivity.
  - reflexivity.
  - vm_compute. discriminate.
  - vm_compute. reflexivity.
  - destruct Hplain as (_ & Huv & Hend).
    + unfold in_user_memory. cbn. lia.
    + exact (conj Huv Hend).
Defined.

(** X6.  YV12 is converted as I420 with the two source chroma planes
    exchanged.  When no plane address wraps around (the span lies in
    user memory, the stride is an unsigned 32-bit number and
    [coded_height * stride * 3] is a [size_t]), a call of the copy
    routine on an I420 buffer means a call on the same buffer declared
    YV12 with the same arguments except that the U and V source
    addresses trade places.  Outside that range the two layouts part:
    with a stride of [2^32] the chroma stride truncates to [-2^31], the
    end of the I420 planes wraps around into the span, and the end of
    the YV12 planes, one plane short of it, does not. *)
Theorem yv12_swaps_source_chroma :
  (forall (span : Span) (stride ch : Z) (handle : BufferHandle) (out : Size)
          (call : LibyuvCall),
      in_user_memory (span_data span) (span_size span) ->
      0 <= stride < 2 ^ 32 -> 0 <= ch ->
      ch * stride * 3 < SIZE_MODULUS ->
      CopyAndConvertFrame span I420 stride ch handle out = Converted call ->
      CopyAndConvertFrame span YV12 stride ch handle out
      = Converted (swap_source_chroma call))
  /\
  (CopyAndConvertFrame {| span_data := 1073741824; span_size := 12884901888 |}
                       I420 4294967296 2 (output_buffer 6) (mkSize 2 2)
   = Converted (I420Copy 1073741824 0 9663676416 (-2147483648)
                         9223372044370968576 (-2147483648)
                         2147483648 2 2147483652 1 2147483653 1 2 2) /\
   CopyAndConvertFrame {| span_data := 1073741824; span_size := 12884901888 |}
                       YV12 4294967296 2 (output_buffer 6) (mkSize 2 2)
   = SrcCheckFailed).
Proof.
  split; [| split; vm_compute; reflexivity].
  intros span stride ch handle out call Hmem Hs Hc Hfit.
  pose proof (in_user_memory_end _ _ Hmem) as Hend.
  destruct Hmem as (Hd0 & Hsz0 & Hd1).
  assert (Hp : 0 <= ch * stride) by (apply Z.mul_nonneg_nonneg; lia).
  destruct (half_stride_plane stride ch) as [Hq0 Hq]; [lia | lia |].
  assert (Hhalf : 0 <= stride / 2 < 2 ^ 31).
  { split; [apply Z.div_pos; lia | apply Z.div_lt_upper_bound; lia]. }
  assert (Hp2 : 0 <= stride * ch / 2 <= stride * ch).
  { rewrite (Z.mul_comm stride ch).
    split; [apply Z.div_pos; lia | apply Z.div_le_upper_bound; lia]. }
  assert (Hqle : 0 <= stride / 2 * ch <= stride * ch).
  { split; [apply Z.mul_nonneg_nonneg; lia |].
    apply Z.mul_le_mono_nonneg_r; [lia |].
    apply Z.div_le_upper_bound; lia. }
  assert (Hp3 : 2 * (stride * ch / 2) <= stride * ch)
    by (apply Z.mul_div_le; lia).
  unfold CopyAndConvertFrame. cbv zeta.
  rewrite (size_mul_small stride ch)
    by (rewrite (Z.mul_comm stride ch); unfold SIZE_MODULUS in *; lia).
  rewrite (to_int_small (stride / 2)) by (unfold INT_MAX in *; lia).
  rewrite (to_size_t_small (stride / 2)) by (unfold SIZE_MODULUS in *; lia).
  rewrite (size_mul_small (stride / 2) ch)
    by (rewrite (Z.mul_comm stride ch) in *; unfold SIZE_MODULUS in *; lia).
  rewrite Hend.
  rewrite (ptr_add_small (span_data span) (stride * ch))
    by (unfold SIZE_MODULUS in *; lia).
  destruct (negb _); [discriminate |].
  cbv beta iota.
  rewrite !(ptr_add_small (span_data span + stride * ch) (stride / 2 * ch / 2))
    by (unfold SIZE_MODULUS in *; lia).
  rewrite (ptr_add_small (span_data span + stride * ch + stride / 2 * ch / 2))
    by (unfold SIZE_MODULUS in *; lia).
  destruct (Z.leb_spec
              (span_data span + stride * ch + stride / 2 * ch / 2
               + stride / 2 * ch / 2)
              (span_data span + span_size span))
    as [Hok | Hbad]; cbn [negb]; [| discriminate].
  intros H. injection H as <-.
  destruct (Z.leb_spec
              (span_data span + stride * ch + stride / 2 * ch / 2)
              (span_data span + span_size span))
    as [Hok' | Hbad']; cbn [negb]; [| lia].
  reflexivity.
Qed.

Lemma yv12_swaps_source_chroma_witness :
  CopyAndConvertFrame {| span_data := 1073741824; span_size := 460800 |}
                      YV12 640 480 (output_buffer 460800) (mkSize 640 480)
  = Converted (I420Copy 1073741824 640 1074125824 320 1074049024 320
                        2147483648 640 2147790848 320 2147867648 320 640 480).
Proof.
  apply (proj1 yv12_swaps_source_chroma
               {| span_data := 1073741824; span_size := 460800 |}
               640 480 (output_buffer 460800) (mkSize 640 480)
               (I420Copy 1073741824 640 1074049024 320 1074125824 320
                         2147483648 640 2147790848 320 2147867648 320 640 480)).
  - unfold in_user_memory. cbn. lia.
  - lia.
  - lia.
  - unfold SIZE_MODULUS. lia.
  - vm_compute. reflexivity.
Defined.

(** ** The per-frame handler: errors and deliveries *)

Ltac frame_cases Ho :=
  inversion Ho as
      [ Hc' | Hc' Hr' | r Hc' Hr' Hi' | r Hc' Hr' Hi' Hno
      | r cw' ch' s' Hc' Hr' Hi' Hlay' Hres'
      | r cw' ch' s' Hc' Hr' Hi' Hlay' Hres' H0'
      | r cw' ch' s' Hc' Hr' Hi' Hlay' Hres' H0' Hlt'
      | r cw' ch' s' abort Hc' Hr' Hi' Hlay' Hres' Hge' Habort
      | r cw' ch' s' call Hc' Hr' Hi' Hlay' Hres' H0' Hge' Hconv' ].

(** X7.  A frame whose buffer index is not below the number of buffers
    of the reader is fatal before anything else is looked at: whatever
    the constraints and the client's answer, the handler reports
    [kFuchsiaSysmemInvalidBufferIndex], reserves no output buffer and
    leaves the stream torn down. *)
Theorem invalid_buffer_index_is_fatal d fi reply reader :
  client_ d = true ->
  buffer_reader_ d = Some reader ->
  num_buffers reader <= to_size_t (buffer_index fi) ->
  ProcessNewFrame fi reply d =
  Done tt (torn_down d) [ClientOnError kFuchsiaSysmemInvalidBufferIndex] /\
  buffer_reader_ (torn_down d) = None /\ stream_ (torn_down d) = false.
Proof.
  intros Hc Hr Hi. split; [| split; reflexivity].
  pose proof (ProcessNewFrame_outcome d fi reply) as Ho.
  frame_cases Ho; try congruence;
    rewrite Hr in Hr'; injection Hr' as <-; lia.
Qed.

Lemma invalid_buffer_index_is_fatal_witness :
  ProcessNewFrame (frame_at 2 5033000000) (reserved 460800) (streaming full_reader)
  = Done tt (torn_down (streaming full_reader))
         [ClientOnError kFuchsiaSysmemInvalidBufferIndex].
Proof.
  apply (invalid_buffer_index_is_fatal
           (streaming full_reader) (frame_at 2 5033000000) (reserved 460800)
           full_reader).
  - reflexivity.
  - reflexivity.
  - vm_compute. discriminate.
Defined.

(** X8.  When the buffer of a frame cannot be mapped (the reader returns
    an empty span), the handler has already reserved the client's output
    buffer; it then reports [kFuchsiaFailedToMapSysmemBuffer], converts
    and delivers nothing, and leaves the stream torn down. *)
Theorem unmapped_buffer_is_fatal d fi reply reader cw ch stride :
  client_ d = true ->
  buffer_reader_ d = Some reader ->
  to_size_t (buffer_index fi) < num_buffers reader ->
  coded_layout (image_format_constraints (buffer_settings reader)) cw ch stride ->
  reserve_result reply = kSucceeded ->
  span_size (GetMappingForBuffer reader (to_size_t (buffer_index fi))) = 0 ->
  ProcessNewFrame fi reply d =
  Done tt (torn_down d)
       [reserve_event d cw ch; ClientOnError kFuchsiaFailedToMapSysmemBuffer].
Proof.
  intros Hc Hr Hi (Hw & Hh & Hs) Hres H0.
  unfold ProcessNewFrame, bind, this. rewrite Hc. cbn. rewrite Hr.
  destruct (Z.leb_spec (num_buffers reader) (to_size_t (buffer_index fi)));
    [lia |].
  rewrite Hw. cbn. rewrite Hh. cbn. rewrite Hs. cbn.
  rewrite Hres, H0, Z.eqb_refl.
  rewrite OnError_eq. cbn. rewrite Hc. reflexivity.
Qed.

Lemma unmapped_buffer_is_fatal_witness :
  ProcessNewFrame (frame_at 0 5033000000) (reserved 460800)
                  (streaming (reader_640x480 I420 [0; 460800]))
  = Done tt (torn_down (streaming (reader_640x480 I420 [0; 460800])))
         [reserve_event (streaming (reader_640x480 I420 [0; 460800])) 640 480;
          ClientOnError kFuchsiaFailedToMapSysmemBuffer].
Proof.
  apply (unmapped_buffer_is_fatal
           (streaming (reader_640x480 I420 [0; 460800]))
           (frame_at 0 5033000000) (reserved 460800)
           (reader_640x480 I420 [0; 460800]) 640 480 640).
  - reflexivity.
  - reflexivity.
  - vm_compute. reflexivity.
  - repeat split; reflexivity.
  - reflexivity.
  - reflexivity.
Defined.

(** X9.  Whatever the frame, a call of the per-frame handler that
    returns has either left the device as it was and reported no error,
    or torn the stream down and reported exactly one error, which is an
    invalid index, a failed mapping or an undersized buffer; in the second
    case nothing was converted or delivered. *)
Theorem frame_handler_errors_tear_down d fi reply d' l :
  ProcessNewFrame fi reply d = Done tt d' l ->
  (d' = d /\ count is_error l = 0%nat) \/
  (d' = torn_down d /\ count is_error l = 1%nat /\
   count is_write l = 0%nat /\ count is_delivery l = 0%nat /\
   (In (ClientOnError kFuchsiaSysmemInvalidBufferIndex) l \/
    In (ClientOnError kFuchsiaFailedToMapSysmemBuffer) l \/
    In (ClientOnError kFuchsiaSysmemInvalidBufferSize) l)).
Proof.
  intros H. pose proof (ProcessNewFrame_outcome d fi reply) as Ho.
  rewrite H in Ho.
  frame_cases Ho; subst;
    try (left; split; reflexivity);
    right; repeat split; cbn; auto.
Qed.

Lemma frame_handler_errors_tear_down_witness :
  count is_error
        [reserve_event (streaming short_reader) 640 480;
         ClientOnError kFuchsiaSysmemInvalidBufferSize] = 1%nat.
Proof.
  destruct (frame_handler_errors_tear_down
              (streaming short_reader) (frame_at 0 5000000000) (reserved 460800)
              (torn_down (streaming short_reader))
              [reserve_event (streaming short_reader) 640 480;
               ClientOnError kFuchsiaSysmemInvalidBufferSize])
    as [[Hd Hc] | (Hd & Hc & _)].
  - vm_compute. reflexivity.
  - vm_compute in Hd. discriminate Hd.
  - exact Hc.
Defined.

(** X10.  A call of the per-frame handler delivers at most one frame,
    and a delivery is always the last of exactly three operations: the
    reservation of an output buffer, one conversion into it, and the
    delivery.  The reserved size, the size the conversion routine is
    called with and the frame size of the delivered format are the same,
    the delivered format is I420, the reference time is the frame's
    capture time and the presentation timestamp is the capture time
    since the start, never negative. *)
Theorem delivery_follows_one_conversion d fi reply :
  existsb is_delivery (log_of (ProcessNewFrame fi reply d)) = true ->
  exists size call format reference presentation rect,
    ProcessNewFrame fi reply d =
      Done tt d
           [ClientReserveOutputBuffer size PIXEL_FORMAT_I420;
            LibyuvWrite call;
            ClientOnIncomingCapturedBufferExt format reference presentation rect] /\
    call_output_size call = size /\
    frame_size format = size /\
    pixel_format format = PIXEL_FORMAT_I420 /\
    reference = FromZxTime (timestamp fi) /\
    presentation = Z.max (reference - start_time_ d) 0 /\
    0 <= presentation.
Proof.
  intros Hdel. pose proof (ProcessNewFrame_outcome d fi reply) as Ho.
  destruct Ho as
      [ Hc' | Hc' Hr' | r Hc' Hr' Hi' | r Hc' Hr' Hi' Hno
      | r cw' ch' s' Hc' Hr' Hi' Hlay' Hres'
      | r cw' ch' s' Hc' Hr' Hi' Hlay' Hres' H0'
      | r cw' ch' s' Hc' Hr' Hi' Hlay' Hres' H0' Hlt'
      | r cw' ch' s' abort Hc' Hr' Hi' Hlay' Hres' Hge' Habort
      | r cw' ch' s' call Hc' Hr' Hi' Hlay' Hres' H0' Hge' Hconv' ];
    try discriminate.
  exists (output_size_of (visible_size_of d cw' ch')), call,
    (capture_format_of d fi cw' ch'), (FromZxTime (timestamp fi)),
    (presentation_of d fi), (gfx_Rect (visible_size_of d cw' ch')).
  repeat split.
  - eapply CopyAndConvertFrame_output_size; eassumption.
  - unfold presentation_of. lia.
Qed.

Lemma delivery_follows_one_conversion_witness :
  exists size call format reference presentation rect,
    ProcessNewFrame (frame_at 0 5033000000) (reserved 460800)
                    (streaming full_reader) =
      Done tt (streaming full_reader)
           [ClientReserveOutputBuffer size PIXEL_FORMAT_I420;
            LibyuvWrite call;
            ClientOnIncomingCapturedBufferExt format reference presentation rect] /\
    call_output_size call = size /\ frame_size format = size.
Proof.
  destruct (delivery_follows_one_conversion
              (streaming full_reader) (frame_at 0 5033000000) (reserved 460800))
    as (size & call & format & reference & presentation & rect
        & Hrun & Hcall & Hfmt & _).
  - vm_compute. reflexivity.
  - exists size, call, format, reference, presentation, rect. auto.
Defined.

(** ** Negotiation, start and stop *)

(** X11.  A reader whose settings carry no image format constraints, or
    whose pixel format is not supported, is not kept: the device reports
    [kFuchsiaSysmemDidNotSetImageFormat] in the first case (whatever the
    pixel format) and [kFuchsiaUnsupportedPixelFormat] in the second,
    tears the stream down, does not signal [OnStarted], requests no frame
    and leaves the started flag as it was. *)
Theorem unusable_reader_is_rejected d reader :
  client_ d = true ->
  has_image_format_constraints (buffer_settings reader) = false \/
  IsSupportedPixelFormat
    (pixel_format_type (image_format_constraints (buffer_settings reader))) = false ->
  OnBufferReaderCreated reader d =
  Done tt (torn_down d)
       [ClientOnError
          (if has_image_format_constraints (buffer_settings reader)
           then kFuchsiaUnsupportedPixelFormat
           else kFuchsiaSysmemDidNotSetImageFormat)] /\
  buffer_reader_ (torn_down d) = None /\
  started_ (torn_down d) = started_ d.
Proof.
  intros Hc Hbad. split; [| split; reflexivity].
  unfold OnBufferReaderCreated, OnError, DisconnectStream, bind, update,
    this, emit, ret. cbn.
  destruct (has_image_format_constraints (buffer_settings reader)) eqn:Hfmt; cbn.
  - destruct Hbad as [Hbad | Hbad]; [discriminate |].
    rewrite Hbad. cbn. rewrite Hc. reflexivity.
  - rewrite Hc. reflexivity.
Qed.

Lemma unusable_reader_is_rejected_witness :
  OnBufferReaderCreated (reader_640x480 (OtherPixelFormat 101) [460800])
                        (streaming full_reader)
  = Done tt (torn_down (streaming full_reader))
         [ClientOnError kFuchsiaUnsupportedPixelFormat].
Proof.
  apply (unusable_reader_is_rejected
           (streaming full_reader)
           (reader_640x480 (OtherPixelFormat 101) [460800])).
  - reflexivity.
  - right. reflexivity.
Defined.

(** X12.  [AllocateAndStart] on an object whose camera connection is
    gone keeps the client, reports [kFuchsiaCameraDeviceDisconnected] to
    it and returns: no stream is connected, nothing is requested, and the
    start time and the frame counter are left as they were. *)
Theorem start_without_device_reports_error d now :
  client_ d = false -> stream_ d = false -> device_ d = false ->
  AllocateAndStart PIXEL_FORMAT_I420 now d =
  Done tt (torn_down (set_client_ true d))
       [ClientOnError kFuchsiaCameraDeviceDisconnected] /\
  stream_ (torn_down (set_client_ true d)) = false /\
  client_ (torn_down (set_client_ true d)) = true /\
  start_time_ (torn_down (set_client_ true d)) = start_time_ d /\
  frames_received_ (torn_down (set_client_ true d)) = frames_received_ d.
Proof.
  intros Hc Hs Hd. split; [| repeat split].
  unfold AllocateAndStart, OnError, DisconnectStream, bind, this, DCHECK,
    update, emit, ret. cbn.
  rewrite Hc, Hs, Hd. cbn. reflexivity.
Qed.

Lemma start_without_device_reports_error_witness :
  AllocateAndStart PIXEL_FORMAT_I420 7 (set_device_ false constructed) =
  Done tt (torn_down (set_client_ true (set_device_ false constructed)))
       [ClientOnError kFuchsiaCameraDeviceDisconnected].
Proof.
  apply (start_without_device_reports_error (set_device_ false constructed) 7);
    reflexivity.
Defined.

(** X13.  After [StopAndDeAllocate], from any state, the object can be
    started again: with the camera connected, [AllocateAndStart] passes
    its checks, records the start time, resets the frame counter, and
    issues, in this order, the connection to stream 0, the resolution
    watch, a new collection token, its hand-over to the stream and the
    collection watch. *)
Theorem stop_then_start d now :
  device_ d = true ->
  exists d',
    (StopAndDeAllocate ;; AllocateAndStart PIXEL_FORMAT_I420 now) d =
    Done tt d'
         [DeviceConnectToStream 0;
          ToStream true WatchResolutionRequest;
          AllocatorCreateNewToken;
          ToStream true SetBufferCollectionRequest;
          ToStream true WatchBufferCollectionRequest] /\
    stream_ d' = true /\ client_ d' = true /\
    start_time_ d' = now /\ frames_received_ d' = 0 /\
    buffer_reader_ d' = None /\ frame_size_ d' = None /\
    started_ d' = started_ d.
Proof.
  intros Hd. eexists. split.
  - unfold bind at 1. rewrite StopAndDeAllocate_eq.
    unfold AllocateAndStart, bind, this, DCHECK, update, emit, WatchResolution,
      WatchBufferCollection, call_stream. cbn. rewrite Hd. cbn. reflexivity.
  - cbn. auto 10.
Qed.

Lemma stop_then_start_witness :
  exists d',
    (StopAndDeAllocate ;; AllocateAndStart PIXEL_FORMAT_I420 9000000)
      (streaming full_reader) =
    Done tt d'
         [DeviceConnectToStream 0;
          ToStream true WatchResolutionRequest;
          AllocatorCreateNewToken;
          ToStream true SetBufferCollectionRequest;
          ToStream true WatchBufferCollectionRequest] /\
    buffer_reader_ d' = None.
Proof.
  destruct (stop_then_start (streaming full_reader) 9000000)
    as (d' & Hrun & _ & _ & _ & _ & Hreader & _).
  - reflexivity.
  - exists d'. split; assumption.
Defined.

(** X14.  When the stream announces a new buffer collection the old pool
    and reader are dropped at once: a frame that arrives after the
    announcement and before the new reader exists is dropped without any
    call on the client, whatever reader the device held before. *)
Theorem frame_during_renegotiation_is_dropped d fi reply :
  client_ d = true ->
  exists d',
    (OnWatchBufferCollectionResult ;; ProcessNewFrame fi reply) d =
    Done tt d'
         [CreatorCreate kMaxUsedOutputFrames;
          ToStream (stream_ d) WatchBufferCollectionRequest] /\
    buffer_reader_ d' = None /\ buffer_collection_ d' = None /\
    buffer_collection_creator_ d' = true.
Proof.
  intros Hc. eexists. split.
  - unfold OnWatchBufferCollectionResult, InitializeBufferCollection,
      WatchBufferCollection, call_stream, ProcessNewFrame, DCHECK,
      bind, this, update, emit. cbn. rewrite Hc. cbn. reflexivity.
  - cbn. auto.
Qed.

Lemma frame_during_renegotiation_is_dropped_witness :
  exists d',
    (OnWatchBufferCollectionResult ;;
     ProcessNewFrame (frame_at 0 5033000000) (reserved 460800))
      (streaming full_reader) =
    Done tt d'
         [CreatorCreate kMaxUsedOutputFrames;
          ToStream true WatchBufferCollectionRequest] /\
    buffer_reader_ d' = None.
Proof.
  destruct (frame_during_renegotiation_is_dropped
              (streaming full_reader) (frame_at 0 5033000000) (reserved 460800))
    as (d' & Hrun & Hreader & _).
  - reflexivity.
  - exists d'. split; assumption.
Defined.

(** ** Runs: what the device keeps consistent *)

Lemma run_invariant_torn_down d : run_invariant (torn_down d).
Proof.
  split; [split |]; cbn; intros; try discriminate; auto.
Qed.

Ltac close_invariant :=
  unfold run_invariant, connection_consistent, usable_reader in *; cbn in *;
  intuition (try discriminate; try congruence; auto).

Lemma dispatch_run_invariant i d :
  run_invariant d ->
  match dispatch i d with
  | Done _ d' _ => run_invariant d'
  | Fault f _ => f <> NullDereference
  end.
Proof.
  intros Hinv. destruct i.
  1-7: run_handler; try discriminate; close_invariant.
  - (* BufferReaderCreated *)
    unfold dispatch, while_alive, bind, this.
    destruct (buffer_collection_ d) as [pool |] eqn:Hpool; [| exact Hinv].
    assert (Hclient : client_ d = true).
    { destruct Hinv as [[Hoff Hon] _].
      destruct (stream_ d) eqn:Hs; [auto |].
      destruct (Hoff eq_refl) as (_ & Hnone & _). congruence. }
    assert (Hstream : stream_ d = true).
    { destruct Hinv as [[Hoff Hon] _].
      destruct (stream_ d) eqn:Hs; [auto |].
      destruct (Hoff eq_refl) as (_ & Hnone & _). congruence. }
    unfold OnBufferReaderCreated, OnError, DisconnectStream, ReceiveNextFrame,
      call_stream, bind, update, this, emit, ret, fault. cbn.
    destruct (has_image_format_constraints (buffer_settings reader)) eqn:Hfmt; cbn;
      [| rewrite Hclient; apply run_invariant_torn_down].
    destruct (IsSupportedPixelFormat _) eqn:Hsup; cbn;
      [| rewrite Hclient; apply run_invariant_torn_down].
    destruct (started_ d); cbn; rewrite ?Hclient; cbn.
    + split; [split |]; cbn; try congruence.
      intros r Hr. injection Hr as <-. split; assumption.
    + split; [split |]; cbn; try congruence.
      intros r Hr. injection Hr as <-. split; assumption.
  - (* NextFrameResult *)
    rewrite dispatch_NextFrameResult.
    destruct (stream_ d) eqn:Hs; [| exact Hinv].
    rewrite OnGetNextFrameResult_eq.
    pose proof (ProcessNewFrame_outcome d frame_info reply) as Ho.
    destruct Ho; try discriminate; try exact Hinv;
      try apply run_invariant_torn_down.
    destruct abort; discriminate.
Qed.

Lemma run_run_invariant inputs :
  forall d,
    run_invariant d ->
    match run inputs d with
    | Done _ d' _ => run_invariant d'
    | Fault f _ => f <> NullDereference
    end.
Proof.
  induction inputs as [| i rest IH]; intros d Hinv.
  - exact Hinv.
  - cbn [run]. unfold bind.
    pose proof (dispatch_run_invariant i d Hinv) as Hd.
    destruct (dispatch i d) as [[] d1 l1 | f l1]; [| exact Hd].
    specialize (IH d1 Hd).
    destruct (run rest d1) as [[] d2 l2 | f l2]; exact IH.
Qed.

Lemma run_invariant_constructed : run_invariant constructed.
Proof. split; [split |]; cbn; intros; try discriminate; auto. Qed.

(** X15.  Whatever reaches the object after its construction, a reader
    it holds has image format constraints and a supported pixel format:
    the per-frame handler never meets a format the converter has no case
    for. *)
Theorem kept_reader_is_usable inputs d l r :
  run inputs constructed = Done tt d l ->
  buffer_reader_ d = Some r ->
  has_image_format_constraints (buffer_settings r) = true /\
  IsSupportedPixelFormat
    (pixel_format_type (image_format_constraints (buffer_settings r))) = true.
Proof.
  intros Hrun Hr.
  pose proof (run_run_invariant inputs constructed run_invariant_constructed) as H.
  rewrite Hrun in H. destruct H as [_ Huse]. exact (Huse r Hr).
Qed.

(** X16.  Whatever reaches the object after its construction, the
    members that depend on the stream exist only while the stream is
    bound (an unbound stream means no pool creator, no pool, no reader
    and no resolution hint), and a bound stream has a client. *)
Theorem no_buffers_without_stream inputs d l :
  run inputs constructed = Done tt d l ->
  (stream_ d = false ->
   buffer_collection_creator_ d = false /\ buffer_collection_ d = None /\
   buffer_reader_ d = None /\ frame_size_ d = None) /\
  (stream_ d = true -> client_ d = true).
Proof.
  intros Hrun.
  pose proof (run_run_invariant inputs constructed run_invariant_constructed) as H.
  rewrite Hrun in H. destruct H as [Hcons _]. exact Hcons.
Qed.

(** X17.  Whatever reaches the object after its construction, [OnStarted]
    is never called on a null client: no run stops in the dereference of
    [client_] in [OnBufferReaderCreated]. *)
Theorem started_signal_has_a_client inputs l :
  run inputs constructed <> Fault NullDereference l.
Proof.
  intros Hrun.
  pose proof (run_run_invariant inputs constructed run_invariant_constructed) as H.
  rewrite Hrun in H. now apply H.
Qed.

Lemma kept_reader_is_usable_witness :
  has_image_format_constraints (buffer_settings full_reader) = true /\
  IsSupportedPixelFormat
    (pixel_format_type (image_format_constraints (buffer_settings full_reader)))
  = true.
Proof.
  eapply (kept_reader_is_usable end_to_end _ _ full_reader).
  - vm_compute. reflexivity.
  - reflexivity.
Defined.

Lemma no_buffers_without_stream_witness :
  exists d l,
    run (negotiation 5000000 1 full_reader ++ [StreamError]) constructed
    = Done tt d l /\
    stream_ d = false /\ buffer_reader_ d = None.
Proof.
  eexists. eexists. split; [vm_compute; reflexivity |].
  split; [reflexivity |].
  eapply (no_buffers_without_stream
            (negotiation 5000000 1 full_reader ++ [StreamError])).
  - vm_compute. reflexivity.
  - reflexivity.
Defined.

(** ** Runs: silence and order *)

Lemma dispatch_disconnected i d :
  disconnected d -> is_start i = false ->
  exists d' l,
    dispatch i d = Done tt d' l /\ disconnected d' /\
    Forall (fun e => is_error e = true) l.
Proof.
  intros (Hs & Hc & Hp) Hi. destruct i; try discriminate.
  - (* stop *)
    rewrite (StopAndDeAllocate_eq d : dispatch CallStopAndDeAllocate d = _).
    do 2 eexists. split; [reflexivity |]. split; [repeat split | constructor].
  - (* device error *)
    unfold dispatch, while_alive, OnDeviceError, OnError, DisconnectStream,
      bind, this, update, emit, ret. cbn.
    destruct (device_ d); cbn.
    + destruct (client_ d); cbn; do 2 eexists;
        (split; [reflexivity |]); (split; [repeat split |]);
        repeat constructor.
    + do 2 eexists. split; [reflexivity |]. split; [repeat split; assumption |].
      constructor.
  - unfold dispatch, while_alive, bind, this. rewrite Hs. cbn.
    do 2 eexists. split; [reflexivity |]. split; [repeat split; assumption |].
    constructor.
  - unfold dispatch, while_alive, bind, this. rewrite Hs. cbn.
    do 2 eexists. split; [reflexivity |]. split; [repeat split; assumption |].
    constructor.
  - unfold dispatch, while_alive, bind, this. rewrite Hs. cbn.
    do 2 eexists. split; [reflexivity |]. split; [repeat split; assumption |].
    constructor.
  - unfold dispatch, while_alive, bind, this. rewrite Hc. cbn.
    do 2 eexists. split; [reflexivity |]. split; [repeat split; assumption |].
    constructor.
  - unfold dispatch, while_alive, bind, this. rewrite Hp. cbn.
    do 2 eexists. split; [reflexivity |]. split; [repeat split; assumption |].
    constructor.
  - unfold dispatch, while_alive, bind, this. rewrite Hs. cbn.
    do 2 eexists. split; [reflexivity |]. split; [repeat split; assumption |].
    constructor.
Qed.

(** X18.  A device without stream (stopped, or torn down by an error)
    stays silent until it is started again: whatever callbacks, errors
    and stops still reach it, the run returns, the device stays
    disconnected, and the only operations it performs are error reports
    to its client; it requests nothing from the stream, reserves,
    converts and delivers nothing, and does not signal [OnStarted]. *)
Theorem disconnected_device_is_silent inputs :
  forall d,
    stream_ d = false -> buffer_collection_creator_ d = false ->
    buffer_collection_ d = None ->
    forallb (fun i => negb (is_start i)) inputs = true ->
    exists d' l,
      run inputs d = Done tt d' l /\
      stream_ d' = false /\
      Forall (fun e => is_error e = true) l.
Proof.
  induction inputs as [| i rest IH]; intros d Hs Hc Hp Hin.
  - exists d, []. repeat split; auto.
  - cbn in Hin. apply andb_true_iff in Hin. destruct Hin as [Hi Hrest].
    apply negb_true_iff in Hi.
    destruct (dispatch_disconnected i d (conj Hs (conj Hc Hp)) Hi)
      as (d1 & l1 & Hd & (Hs1 & Hc1 & Hp1) & Hl1).
    destruct (IH d1 Hs1 Hc1 Hp1 Hrest) as (d2 & l2 & Hr & Hs2 & Hl2).
    exists d2, (l1 ++ l2). split.
    + cbn [run]. unfold bind. rewrite Hd, Hr. reflexivity.
    + split; [exact Hs2 |]. apply Forall_app. split; assumption.
Qed.

Lemma disconnected_device_is_silent_witness :
  exists d' l,
    run [NextFrameResult (frame_at 0 5033000000) (reserved 460800);
         BufferReaderCreated full_reader; DeviceError]
        (torn_down (streaming full_reader))
    = Done tt d' l /\
    stream_ d' = false /\
    Forall (fun e => is_error e = true) l.
Proof.
  apply (disconnected_device_is_silent
           [NextFrameResult (frame_at 0 5033000000) (reserved 460800);
            BufferReaderCreated full_reader; DeviceError]
           (torn_down (streaming full_reader)));
    reflexivity.
Defined.

(** X19.  Frames that arrive on a bound stream before the device holds a
    reader are dropped one by one: each callback only asks for the next
    frame, the client is not called, and the device is left unchanged. *)
Theorem frames_before_reader_are_dropped frames :
  forall d,
    client_ d = true -> stream_ d = true -> buffer_reader_ d = None ->
    run (frame_inputs frames) d =
    Done tt d (repeat (ToStream true GetNextFrameRequest) (length frames)).
Proof.
  induction frames as [| [fi reply] rest IH]; intros d Hc Hs Hr.
  - reflexivity.
  - cbn [frame_inputs map fst snd run length repeat]. unfold bind at 1.
    rewrite dispatch_NextFrameResult, Hs, OnGetNextFrameResult_eq.
    assert (Hp : ProcessNewFrame fi reply d = Done tt d []).
    { unfold ProcessNewFrame, bind, this. rewrite Hc. cbn. rewrite Hr.
      reflexivity. }
    rewrite Hp, Hs.
    change (run (map (fun f => NextFrameResult (fst f) (snd f)) rest) d)
      with (run (frame_inputs rest) d).
    rewrite (IH d Hc Hs Hr). reflexivity.
Qed.

Lemma frames_before_reader_are_dropped_witness :
  run (frame_inputs [(frame_at 0 5000000000, reserved 460800);
                     (frame_at 1 5033000000, reserved 460800)])
      (set_buffer_reader_ None (streaming full_reader))
  = Done tt (set_buffer_reader_ None (streaming full_reader))
         [ToStream true GetNextFrameRequest; ToStream true GetNextFrameRequest].
Proof.
  apply (frames_before_reader_are_dropped
           [(frame_at 0 5000000000, reserved 460800);
            (frame_at 1 5033000000, reserved 460800)]
           (set_buffer_reader_ None (streaming full_reader)));
    reflexivity.
Defined.

Lemma Subsequence_nil {A} (l : list A) : Subsequence [] l.
Proof. induction l; constructor; assumption. Qed.

Lemma Subsequence_app {A} (a1 a2 b1 b2 : list A) :
  Subsequence a1 b1 -> Subsequence a2 b2 -> Subsequence (a1 ++ a2) (b1 ++ b2).
Proof.
  intros H1 H2. induction H1; cbn; try constructor; assumption.
Qed.

Lemma delivered_references_app l1 l2 :
  delivered_references (l1 ++ l2)
  = delivered_references l1 ++ delivered_references l2.
Proof. unfold delivered_references. apply flat_map_app. Qed.

Lemma log_of_bind {A B} (m : M A) (k : A -> M B) d :
  log_of (bind m k d) =
  match m d with
  | Done a d1 l1 => l1 ++ log_of (k a d1)
  | Fault _ l1 => l1
  end.
Proof.
  unfold bind. destruct (m d) as [a d1 l1 | f l1]; [| reflexivity].
  destruct (k a d1); reflexivity.
Qed.

Lemma dispatch_delivers i d :
  Subsequence (delivered_references (log_of (dispatch i d)))
              (frame_references [i]).
Proof.
  destruct i.
  1-8: run_handler; constructor.
  rewrite dispatch_NextFrameResult. cbn [frame_references flat_map app].
  destruct (stream_ d); [| cbn; apply Subsequence_nil].
  rewrite OnGetNextFrameResult_eq.
  destruct (ProcessNewFrame_outcome d frame_info reply); cbn;
    try apply Subsequence_nil.
  apply SubKeep, SubNil.
Qed.

(** X20.  Frames reach the client in the order the stream hands them
    over, each at most once: in every run, from any state, the reference
    times of the delivered frames are the capture times of the frames
    received, in the same order, with the dropped ones left out. *)
Theorem frames_are_delivered_in_order inputs :
  forall d,
    Subsequence (delivered_references (log_of (run inputs d)))
                (frame_references inputs).
Proof.
  induction inputs as [| i rest IH]; intros d.
  - constructor.
  - cbn [run]. rewrite log_of_bind.
    replace (frame_references (i :: rest))
      with (frame_references [i] ++ frame_references rest)
      by (unfold frame_references; cbn [flat_map]; now rewrite app_nil_r).
    pose proof (dispatch_delivers i d) as Hd.
    destruct (dispatch i d) as [[] d1 l1 | f l1]; cbn [log_of] in Hd.
    + rewrite delivered_references_app. apply Subsequence_app; [exact Hd | apply IH].
    + rewrite <- (app_nil_r (delivered_references l1)).
      apply Subsequence_app; [exact Hd | apply Subsequence_nil].
Qed.

Lemma frames_are_delivered_in_order_witness :
  Subsequence
    (delivered_references
       (log_of (run [NextFrameResult (frame_at 0 5000000000) refused;
                     NextFrameResult (frame_at 1 5033000000) (reserved 460800)]
                    (streaming full_reader))))
    [5000000; 5033000].
Proof.
  exact (frames_are_delivered_in_order
           [NextFrameResult (frame_at 0 5000000000) refused;
            NextFrameResult (frame_at 1 5033000000) (reserved 460800)]
           (streaming full_reader)).
Defined.

(** ** The resolution hint, the pull loop and the started signal *)

(** X21.  Once the stream has reported a resolution, the rectangle
    delivered with a frame is the origin-anchored rectangle of that
    resolution, negative components raised to zero, whatever the coded
    size of the buffers; the report also re-arms the resolution watch. *)
Theorem resolution_hint_overrides_coded_size
    d w h fi reply format reference presentation rect :
  In (ClientOnIncomingCapturedBufferExt format reference presentation rect)
     (log_of ((OnWatchResolutionResult w h ;; ProcessNewFrame fi reply) d)) ->
  rect = mkRect 0 0 (Z.max 0 w) (Z.max 0 h) /\
  hd_error (log_of ((OnWatchResolutionResult w h ;; ProcessNewFrame fi reply) d))
  = Some (ToStream (stream_ d) WatchResolutionRequest).
Proof.
  rewrite log_of_bind.
  unfold OnWatchResolutionResult, WatchResolution, call_stream, bind, update,
    this, emit. cbn [log_of app hd_error].
  set (d2 := set_frame_size_ (Some (gfx_Size w h)) d).
  intros [Hin | Hin]; [discriminate |].
  split; [| reflexivity].
  destruct (ProcessNewFrame_outcome d2 fi reply); cbn in Hin;
    repeat match goal with
           | H : _ \/ _ |- _ => destruct H
           | H : False |- _ => destruct H
           end; try discriminate.
  match goal with
  | H : delivery_event _ _ _ _ = _ |- _ =>
      unfold delivery_event in H; injection H as _ _ _ <-
  end.
  reflexivity.
Qed.

Lemma resolution_hint_overrides_coded_size_witness :
  gfx_Rect (gfx_Size 320 (-5)) = mkRect 0 0 (Z.max 0 320) (Z.max 0 (-5)).
Proof.
  pose (d := streaming full_reader).
  pose (d2 := set_frame_size_ (Some (gfx_Size 320 (-5))) d).
  pose (fi := frame_at 0 5033000000).
  apply (resolution_hint_overrides_coded_size
           d 320 (-5) fi (reserved 460800)
           (capture_format_of d2 fi 640 480) (FromZxTime (timestamp fi))
           (presentation_of d2 fi) (gfx_Rect (gfx_Size 320 (-5)))).
  vm_compute. right. right. right. left. reflexivity.
Defined.

(** X22.  Whether or not the frame ends in a fatal error, the callback
    of [GetNextFrame] asks for the next frame exactly once after the
    handler returns; after a fatal error of the handler the stream is
    already unbound when the request is made. *)
Theorem next_request_after_fatal_frame d fi reply d' l :
  stream_ d = true ->
  ProcessNewFrame fi reply d = Done tt d' l ->
  OnGetNextFrameResult fi reply d =
  Done tt d' (l ++ [ToStream (negb (existsb is_error l)) GetNextFrameRequest]) /\
  count is_next_frame_request (log_of (OnGetNextFrameResult fi reply d)) = 1%nat.
Proof.
  intros Hs Hp.
  assert (Hbound : stream_ d' = negb (existsb is_error l)).
  { pose proof (ProcessNewFrame_outcome d fi reply) as Ho. rewrite Hp in Ho.
    inversion Ho; subst; cbn; auto. }
  pose proof (ProcessNewFrame_no_request d fi reply) as Hno.
  rewrite OnGetNextFrameResult_eq, Hp in *. cbn [log_of] in *.
  rewrite Hbound. split; [reflexivity |].
  rewrite count_app. cbn.
  assert (Hz : count is_next_frame_request l = 0%nat).
  { clear - Hno. unfold count. induction l as [| e l IH]; [reflexivity |].
    cbn in *. apply orb_false_iff in Hno. destruct Hno as [He Hl].
    rewrite He. now apply IH. }
  rewrite Hz. reflexivity.
Qed.

Lemma next_request_after_fatal_frame_witness :
  OnGetNextFrameResult (frame_at 0 5000000000) (reserved 460800)
                       (streaming short_reader) =
  Done tt (torn_down (streaming short_reader))
       ([reserve_event (streaming short_reader) 640 480;
         ClientOnError kFuchsiaSysmemInvalidBufferSize]
        ++ [ToStream false GetNextFrameRequest]).
Proof.
  apply (next_request_after_fatal_frame
           (streaming short_reader) (frame_at 0 5000000000) (reserved 460800)
           (torn_down (streaming short_reader))
           [reserve_event (streaming short_reader) 640 480;
            ClientOnError kFuchsiaSysmemInvalidBufferSize]).
  - reflexivity.
  - vm_compute. reflexivity.
Defined.

(** X23.  A start on a fresh object followed by one negotiation round
    that ends with a usable reader leaves the device started, holding the
    pool and the reader, and has performed, after the five operations of
    the start, the pool creation for one frame in flight, the re-armed
    collection watch, the creation of the reader, the [OnStarted] signal
    and the first frame request, in this order. *)
Theorem negotiation_completes now pool reader :
  has_image_format_constraints (buffer_settings reader) = true ->
  IsSupportedPixelFormat
    (pixel_format_type (image_format_constraints (buffer_settings reader))) = true ->
  exists d,
    run (negotiation now pool reader) constructed =
    Done tt d
         [DeviceConnectToStream 0;
          ToStream true WatchResolutionRequest;
          AllocatorCreateNewToken;
          ToStream true SetBufferCollectionRequest;
          ToStream true WatchBufferCollectionRequest;
          CreatorCreate 1;
          ToStream true WatchBufferCollectionRequest;
          CollectionCreateReader;
          ClientOnStarted;
          ToStream true GetNextFrameRequest] /\
    started_ d = true /\ stream_ d = true /\ client_ d = true /\
    buffer_reader_ d = Some reader /\
    buffer_collection_ d = Some {| pool_id := pool |} /\
    start_time_ d = now /\ frames_received_ d = 0 /\ frame_size_ d = None.
Proof.
  intros Hfmt Hsup. eexists. split.
  - unfold negotiation, run, dispatch, while_alive, AllocateAndStart,
      OnWatchBufferCollectionResult, InitializeBufferCollection,
      OnBufferCollectionCreated, OnBufferReaderCreated, WatchResolution,
      WatchBufferCollection, ReceiveNextFrame, call_stream, DCHECK,
      bind, this, update, emit, ret. cbn.
    rewrite Hfmt, Hsup. cbn. reflexivity.
  - cbn. auto 10.
Qed.

Lemma negotiation_completes_witness :
  exists d,
    run (negotiation 5000000 1 full_reader) constructed =
    Done tt d
         [DeviceConnectToStream 0;
          ToStream true WatchResolutionRequest;
          AllocatorCreateNewToken;
          ToStream true SetBufferCollectionRequest;
          ToStream true WatchBufferCollectionRequest;
          CreatorCreate 1;
          ToStream true WatchBufferCollectionRequest;
          CollectionCreateReader;
          ClientOnStarted;
          ToStream true GetNextFrameRequest] /\
    started_ d = true.
Proof.
  destruct (negotiation_completes 5000000 1 full_reader)
    as (d & Hrun & Hstarted & _).
  - reflexivity.
  - reflexivity.
  - exists d. split; assumption.
Defined.

Lemma deliveries_after_started_app seen l1 l2 :
  deliveries_after_started seen (l1 ++ l2) =
  deliveries_after_started seen l1
  && deliveries_after_started (seen || existsb is_started l1) l2.
Proof.
  revert seen. induction l1 as [| e l1 IH]; intros seen; cbn.
  - now rewrite orb_false_r.
  - rewrite IH, andb_assoc, orb_assoc. reflexivity.
Qed.

Lemma dispatch_started_seen i d seen :
  started_seen d seen ->
  deliveries_after_started seen (log_of (dispatch i d)) = true /\
  (forall d1 l1,
      dispatch i d = Done tt d1 l1 ->
      started_seen d1 (seen || existsb is_started l1)).
Proof.
  intros [Hflag Hreader]. destruct i.
  1-8: split;
       [ run_handler; reflexivity
       | intros d1 l1; run_handler; intros H; try discriminate;
         inversion H; subst; unfold started_seen; cbn;
         rewrite ?orb_false_r, ?orb_true_r;
         split; intros; try discriminate; try congruence; auto; eauto;
         try (match goal with
              | Hn : negb ?b = false |- ?b = true =>
                  now apply negb_false_iff in Hn
              end) ].
  rewrite dispatch_NextFrameResult.
  destruct (stream_ d).
  2: { split; [reflexivity |]. intros d1 l1 H. inversion H; subst.
       cbn. rewrite orb_false_r. split; assumption. }
  rewrite OnGetNextFrameResult_eq.
  destruct (ProcessNewFrame_outcome d frame_info reply) as
      [ Hc' | Hc' Hr' | r Hc' Hr' Hi' | r Hc' Hr' Hi' Hno'
      | r cw' ch' s' Hc' Hr' Hi' Hlay' Hres'
      | r cw' ch' s' Hc' Hr' Hi' Hlay' Hres' H0'
      | r cw' ch' s' Hc' Hr' Hi' Hlay' Hres' H0' Hlt'
      | r cw' ch' s' abort Hc' Hr' Hi' Hlay' Hres' Hge' Habort
      | r cw' ch' s' call Hc' Hr' Hi' Hlay' Hres' H0' Hge' Hconv' ];
    cbn [log_of] in *.
  all: split;
    [ cbn; rewrite ?(Hflag (Hreader _ Hr')); reflexivity
    | intros d1 l1 H; try discriminate; inversion H; subst;
      unfold reserve_event, delivery_event; cbn; rewrite ?orb_false_r;
      split; cbn; try assumption; intros; try discriminate; auto ].
Qed.

Lemma run_started_seen inputs :
  forall d seen,
    started_seen d seen ->
    deliveries_after_started seen (log_of (run inputs d)) = true.
Proof.
  induction inputs as [| i rest IH]; intros d seen Hk.
  - reflexivity.
  - cbn [run]. rewrite log_of_bind.
    destruct (dispatch_started_seen i d seen Hk) as [Hlog Hnext].
    destruct (dispatch i d) as [[] d1 l1 | f l1]; cbn [log_of] in Hlog.
    + rewrite deliveries_after_started_app, Hlog. cbn.
      apply IH. now apply Hnext.
    + exact Hlog.
Qed.

(** X24.  Whatever reaches the object after its construction, the client
    is never handed a frame before it was told that capture has started:
    every delivery in the log of a run comes after an [OnStarted]. *)
Theorem no_delivery_before_started inputs :
  deliveries_after_started false (log_of (run inputs constructed)) = true.
Proof.
  apply run_started_seen. split; cbn; intros; discriminate.
Qed.

(** X25.  Once the camera connection has failed, the object cannot be
    started again: the failure is reported to the client of the running
    capture, and after a stop a new [AllocateAndStart] reports
    [kFuchsiaCameraDeviceDisconnected] to the new client without
    connecting any stream.  (The failed channel is unbound when its
    error handler runs.) *)
Theorem start_after_device_error d now :
  device_ d = true ->
  exists d',
    run [DeviceError; CallStopAndDeAllocate;
         CallAllocateAndStart PIXEL_FORMAT_I420 now] d =
    Done tt d'
         ((if client_ d then [ClientOnError kFuchsiaCameraDeviceDisconnected]
           else [])
          ++ [ClientOnError kFuchsiaCameraDeviceDisconnected]) /\
    device_ d' = false /\ stream_ d' = false /\ client_ d' = true /\
    buffer_reader_ d' = None.
Proof.
  intros Hd. eexists. split.
  - unfold run, dispatch, while_alive, OnDeviceError, OnError, StopAndDeAllocate,
      DisconnectStream, AllocateAndStart, DCHECK, bind, this, update, emit, ret.
    cbn. rewrite Hd. cbn.
    destruct (client_ d); cbn; reflexivity.
  - cbn. auto.
Qed.

Lemma start_after_device_error_witness :
  exists d',
    run [DeviceError; CallStopAndDeAllocate;
         CallAllocateAndStart PIXEL_FORMAT_I420 9000000] (streaming full_reader) =
    Done tt d'
         [ClientOnError kFuchsiaCameraDeviceDisconnected;
          ClientOnError kFuchsiaCameraDeviceDisconnected] /\
    stream_ d' = false.
Proof.
  destruct (start_after_device_error (streaming full_reader) 9000000)
    as (d' & Hrun & _ & Hs & _).
  - reflexivity.
  - exists d'. split; assumption.
Defined.
